(** * Policy authority of the certificate authority (policy/pa.go)

    A shallow embedding of [policy/pa.go]: the hostname policy store and its
    reload, the identifier and wildcard validators, and the challenge
    selector, followed by the properties of the specification they satisfy.

    Conventions.
    - A Go [string] is a [string] (a sequence of bytes), [len] is
      [String.length].
    - A Go [map[string]bool] field is an [option (gmap string bool)]: [None]
      is the nil map, and indexing a nil map or an absent key yields [false].
    - A Go [error] result is an [option error], [None] being [nil].
    - Code outside the file (JSON decoding, IP parsing, IDNA decoding, the
      public suffix list, the pseudo random generator, feature flags, the
      challenge constructors) is a field of the class [External]. *)

From Stdlib Require Import Ascii String List ZArith Lia.
From Stdlib Require Import Strings.Byte.
From stdpp Require Import gmap strings list fin_maps.

(** ** Go's [strings] package, as far as [pa.go] uses it.
    Separators are single bytes: every separator of the file is one. *)
Module strings.

(** [strings.HasPrefix(s, prefix)] *)
Fixpoint HasPrefix (s prefix : string) {struct prefix} : bool :=
  match prefix, s with
  | EmptyString, _ => true
  | String _ _, EmptyString => false
  | String c p, String d s' => if Ascii.eqb c d then HasPrefix s' p else false
  end.

(** [strings.HasSuffix(s, suffix)] *)
Fixpoint HasSuffix (s suffix : string) : bool :=
  String.eqb s suffix ||
  match s with
  | EmptyString => false
  | String _ s' => HasSuffix s' suffix
  end.

Fixpoint dropBytes (n : nat) (s : string) : string :=
  match n, s with
  | S n', String _ s' => dropBytes n' s'
  | _, _ => s
  end.

(** [strings.TrimPrefix(s, prefix)] *)
Definition TrimPrefix (s prefix : string) : string :=
  if HasPrefix s prefix then dropBytes (String.length prefix) s else s.

(** [strings.Count(s, sep)] for a one-byte [sep] *)
Fixpoint Count (s : string) (sep : ascii) : nat :=
  match s with
  | EmptyString => 0
  | String c s' => (if Ascii.eqb c sep then 1 else 0) + Count s' sep
  end.

(** [strings.Split(s, sep)] for a one-byte [sep]; the result is never
    empty, and [Split] of the empty string is one empty string. *)
Fixpoint Split (s : string) (sep : ascii) : list string :=
  match s with
  | EmptyString => [EmptyString]
  | String c s' =>
      if Ascii.eqb c sep then EmptyString :: Split s' sep
      else match Split s' sep with
           | l :: ls => String c l :: ls
           | [] => [String c EmptyString]
           end
  end.

(** [strings.SplitN(s, sep, 2)] for a one-byte [sep]: the text before the
    first separator and the text after it, or [s] alone without one. *)
Fixpoint SplitN2 (s : string) (sep : ascii) : list string :=
  match s with
  | EmptyString => [EmptyString]
  | String c s' =>
      if Ascii.eqb c sep then [EmptyString; s']
      else match SplitN2 s' sep with
           | [l] => [String c l]
           | l :: ls => String c l :: ls
           | [] => [String c EmptyString]
           end
  end.

(** [strings.Join(a, sep)] for a one-byte [sep] *)
Fixpoint Join (a : list string) (sep : ascii) : string :=
  match a with
  | [] => EmptyString
  | [x] => x
  | x :: rest => x +:+ String sep (Join rest sep)
  end.

End strings.

(** ** Errors *)

(** Modelled from the spec: package [berrors] is not in the file. The
    specification has two classes of error, Malformed and Rejected, and the
    two constructors the file calls build an error of the class in their
    name. *)
Inductive ErrorType := Malformed | RejectedIdentifier.

(** A Go [error] value: one made by [berrors.MalformedError] or
    [berrors.RejectedIdentifierError], one made by [fmt.Errorf] (its format
    and arguments), or one handed back by the JSON decoder. *)
Inductive error :=
| BoulderError (t : ErrorType) (detail : string)
| FmtError (format : string) (args : list string)
| JSONError (detail : string).

Definition MalformedError (msg : string) : error := BoulderError Malformed msg.
Definition RejectedIdentifierError (msg : string) : error :=
  BoulderError RejectedIdentifier msg.

(** The class of an error, when it has one. *)
Definition errorType (e : error) : option ErrorType :=
  match e with
  | BoulderError t _ => Some t
  | _ => None
  end.

Definition errInvalidIdentifier := MalformedError "Invalid identifier type".
Definition errNonPublic := MalformedError "Name does not end in a public suffix".
Definition errICANNTLD := MalformedError "Name is an ICANN TLD".
Definition errBlacklisted := RejectedIdentifierError "Policy forbids issuing for name".
Definition errInvalidDNSCharacter := MalformedError "Invalid character in DNS name".
Definition errNameTooLong := MalformedError "DNS name too long".
Definition errIPAddress := MalformedError "Issuance for IP addresses not supported".
Definition errTooManyLabels := MalformedError "DNS name has too many labels".
Definition errEmptyName := MalformedError "DNS name was empty".
Definition errNameEndsInDot := MalformedError "DNS name ends in a period".
Definition errTooFewLabels := MalformedError "DNS name does not have enough labels".
Definition errLabelTooShort := MalformedError "DNS label is too short".
Definition errLabelTooLong := MalformedError "DNS label is too long".
Definition errMalformedIDN := MalformedError "DNS label contains malformed punycode".
Definition errInvalidRLDH := RejectedIdentifierError "DNS name contains a R-LDH label".
Definition errTooManyWildcards := MalformedError "DNS name had more than one wildcard".
Definition errMalformedWildcard := MalformedError "DNS name had a malformed wildcard label".
Definition errICANNTLDWildcard := MalformedError "DNS name was a wildcard for an ICANN TLD".
Definition errWildcardNotSupported := MalformedError "Wildcard names not supported".

(** The [fmt.Errorf] errors of the file. *)
Definition errNotLoaded : error := FmtError "Hostname policy not yet loaded." [].
Definition errNoEntries : error := FmtError "No entries in blacklist." [].
Definition errMalformedExact (v : string) : error :=
  FmtError "Malformed exact blacklist entry, only one label: %q" [v].
Definition errWildcardNoDNS01 : error :=
  FmtError "Challenges requested for wildcard identifier but DNS-01 challenge type is not enabled" [].

(** ** Data *)

Record blacklistJSON := {
  Blacklist : list string;
  ExactBlacklist : list string
}.

(** Modelled from the spec: [core.AcmeIdentifier], of a package that is not
    in the file, is a tagged value with a type and a value; the only type
    is the DNS one. *)
Record AcmeIdentifier := {
  Type_ : string;
  Value : string
}.

Definition IdentifierDNS : string := "dns".

(** Modelled from the spec: [core.Challenge], of a package that is not in
    the file, carries a challenge type and a token; the four challenge
    types are HTTP-01, TLS-SNI-01, TLS-ALPN-01 and DNS-01. *)
Record Challenge := {
  chType : string;
  chToken : string
}.

Definition ChallengeTypeHTTP01 : string := "http-01".
Definition ChallengeTypeTLSSNI01 : string := "tls-sni-01".
Definition ChallengeTypeTLSALPN01 : string := "tls-alpn-01".
Definition ChallengeTypeDNS01 : string := "dns-01".

(** The two flags of package [features] the file asks for. *)
Inductive FeatureFlag := NewAuthorizationSchema | TLSSNIRevalidation.

(** ** Code outside the file *)
Class External := {
  (** [json.Unmarshal] into a [blacklistJSON] *)
  jsonUnmarshalBlacklist : list byte -> error + blacklistJSON;
  (** [json.Unmarshal] into a [map[string][]int64] *)
  jsonUnmarshalWhitelist : list byte -> error + gmap string (list Z);
  (** [net.ParseIP(s) != nil] *)
  ParseIP : string -> bool;
  (** [idna.ToUnicode]: the decoded label, or [None] for an error *)
  ToUnicode : string -> option string;
  (** [norm.NFC.IsNormalString] *)
  IsNormalString : string -> bool;
  (** [iana.ExtractSuffix]: the public suffix, or [None] for an error *)
  ExtractSuffix : string -> option string;
  (** [features.Enabled] *)
  featureEnabled : FeatureFlag -> bool;
  (** the state of a [*rand.Rand], [rand.New(rand.NewSource(seed))] and
      the generator method [Perm] *)
  Rng : Type;
  NewSource : Z -> Rng;
  Perm : Rng -> nat -> list nat * Rng;
  (** the state behind [core.NewToken] and the challenge constructors of
      package [core], which draw random tokens *)
  Entropy : Type;
  NewToken : Entropy -> string * Entropy;
  HTTPChallenge01 : string -> Entropy -> Challenge * Entropy;
  TLSSNIChallenge01 : string -> Entropy -> Challenge * Entropy;
  TLSALPNChallenge01 : string -> Entropy -> Challenge * Entropy;
  DNSChallenge01 : string -> Entropy -> Challenge * Entropy
}.

(** Indexing a Go [map[K]bool]: [false] for a nil map or an absent key. *)
Definition index `{Countable K} (m : option (gmap K bool)) (k : K) : bool :=
  match m with
  | Some m => default false (m !! k)
  | None => false
  end.
Global Arguments index : simpl never.

Section Policy.
Context `{E : External}.

(** [AuthorityImpl], without the logger and the two locks. *)
Record AuthorityImpl := {
  blacklist : option (gmap string bool);
  exactBlacklist : option (gmap string bool);
  wildcardExactBlacklist : option (gmap string bool);
  enabledChallenges : option (gmap string bool);
  enabledChallengesWhitelist : option (gmap string (gmap Z bool));
  pseudoRNG : Rng
}.

(** [New] *)
Definition New (challengeTypes : option (gmap string bool)) : AuthorityImpl :=
  {| blacklist := None;
     exactBlacklist := None;
     wildcardExactBlacklist := None;
     enabledChallenges := challengeTypes;
     enabledChallengesWhitelist := None;
     pseudoRNG := NewSource 99 |}.

(** The first loop of [loadHostnamePolicy]. *)
Fixpoint buildNameMap (l : list string) (nameMap : gmap string bool)
  : gmap string bool :=
  match l with
  | [] => nameMap
  | v :: l' => buildNameMap l' (<[v := true]> nameMap)
  end.

(** The second loop of [loadHostnamePolicy]: the two maps, or the error of
    the first entry that has no second part. *)
Fixpoint buildExactMaps (l : list string)
    (exactNameMap wildcardNameMap : gmap string bool)
  : error + (gmap string bool * gmap string bool) :=
  match l with
  | [] => inr (exactNameMap, wildcardNameMap)
  | v :: l' =>
      let exactNameMap := <[v := true]> exactNameMap in
      match strings.SplitN2 v "."%char with
      | _ :: rest :: _ =>
          buildExactMaps l' exactNameMap (<[rest := true]> wildcardNameMap)
      | _ => inl (errMalformedExact v)
      end
  end.

(** [loadHostnamePolicy]: the authority after the call and the error. The
    hash of the input is only logged. *)
Definition loadHostnamePolicy (pa : AuthorityImpl) (b : list byte)
  : AuthorityImpl * option error :=
  match jsonUnmarshalBlacklist b with
  | inl err => (pa, Some err)
  | inr bl =>
      if Nat.eqb (length (Blacklist bl)) 0 then (pa, Some errNoEntries)
      else
        let nameMap := buildNameMap (Blacklist bl) ∅ in
        match buildExactMaps (ExactBlacklist bl) ∅ ∅ with
        | inl err => (pa, Some err)
        | inr (exactNameMap, wildcardNameMap) =>
            ({| blacklist := Some nameMap;
                exactBlacklist := Some exactNameMap;
                wildcardExactBlacklist := Some wildcardNameMap;
                enabledChallenges := enabledChallenges pa;
                enabledChallengesWhitelist := enabledChallengesWhitelist pa;
                pseudoRNG := pseudoRNG pa |}, None)
        end
  end.

(** The inner loop of [loadChallengesWhitelist]. *)
Fixpoint buildAccountSet (l : list Z) (m : gmap Z bool) : gmap Z bool :=
  match l with
  | [] => m
  | i :: l' => buildAccountSet l' (<[i := true]> m)
  end.

(** [loadChallengesWhitelist] *)
Definition loadChallengesWhitelist (pa : AuthorityImpl) (b : list byte)
  : AuthorityImpl * option error :=
  match jsonUnmarshalWhitelist b with
  | inl err => (pa, Some err)
  | inr wl =>
      let chalWl := (fun v => buildAccountSet v ∅) <$> wl in
      ({| blacklist := blacklist pa;
          exactBlacklist := exactBlacklist pa;
          wildcardExactBlacklist := wildcardExactBlacklist pa;
          enabledChallenges := enabledChallenges pa;
          enabledChallengesWhitelist := Some chalWl;
          pseudoRNG := pseudoRNG pa |}, None)
  end.

(** [checkWildcardHostList] *)
Definition checkWildcardHostList (pa : AuthorityImpl) (domain : string)
  : option error :=
  match blacklist pa with
  | None => Some errNotLoaded
  | Some _ =>
      if index (wildcardExactBlacklist pa) domain then Some errBlacklisted
      else None
  end.

(** The loop of [checkHostLists] over the indices [idxs] of [labels]. *)
Fixpoint checkSuffixes (bl : option (gmap string bool)) (labels : list string)
    (idxs : list nat) : option error :=
  match idxs with
  | [] => None
  | i :: idxs' =>
      let joined := strings.Join (drop i labels) "."%char in
      if index bl joined then Some errBlacklisted
      else checkSuffixes bl labels idxs'
  end.

(** [checkHostLists] *)
Definition checkHostLists (pa : AuthorityImpl) (domain : string)
  : option error :=
  match blacklist pa with
  | None => Some errNotLoaded
  | Some _ =>
      let labels := strings.Split domain "."%char in
      match checkSuffixes (blacklist pa) labels (seq 0 (length labels)) with
      | Some err => Some err
      | None =>
          if index (exactBlacklist pa) domain then Some errBlacklisted
          else None
      end
  end.

(** ** The identifier validator *)

Definition maxLabels : nat := 10.
Definition maxLabelLength : nat := 63.
Definition maxDNSIdentifierLength : nat := 230.

(** Comparison of two bytes, [a <= b]. *)
Definition byte_le (a b : ascii) : bool := nat_of_ascii a <=? nat_of_ascii b.

(** [isDNSCharacter] *)
Definition isDNSCharacter (ch : ascii) : bool :=
  (byte_le "a"%char ch && byte_le ch "z"%char) ||
  (byte_le "A"%char ch && byte_le ch "Z"%char) ||
  (byte_le "0"%char ch && byte_le ch "9"%char) ||
  Ascii.eqb ch "."%char || Ascii.eqb ch "-"%char.

(** The character class [[a-z0-9]] of the three regular expressions. *)
Definition isLowerAlnum (ch : ascii) : bool :=
  (byte_le "a"%char ch && byte_le ch "z"%char) || (byte_le "0"%char ch && byte_le ch "9"%char).

(** [dnsLabelRegexp.MatchString]: the expression
    [^[a-z0-9][a-z0-9-]{0,62}$]. *)
Definition dnsLabelRegexp (label : string) : bool :=
  match label with
  | EmptyString => false
  | String c rest =>
      isLowerAlnum c &&
      forallb (fun d => isLowerAlnum d || Ascii.eqb d "-"%char)
              (list_ascii_of_string rest) &&
      (String.length rest <=? 62)
  end.

(** [punycodeRegexp.MatchString]: the expression [^xn--]. *)
Definition punycodeRegexp (label : string) : bool :=
  strings.HasPrefix label "xn--".

(** [idnReservedRegexp.MatchString]: the expression [^[a-z0-9]{2}--]. *)
Definition idnReservedRegexp (label : string) : bool :=
  match label with
  | String c1 (String c2 rest) =>
      isLowerAlnum c1 && isLowerAlnum c2 && strings.HasPrefix rest "--"
  | _ => false
  end.

(** The last byte of a string, [label[len(label)-1]]; [None] where Go would
    fail on an empty string. *)
Fixpoint lastByte (s : string) : option ascii :=
  match s with
  | EmptyString => None
  | String c EmptyString => Some c
  | String _ s' => lastByte s'
  end.

(** The body of the loop of [WillingToIssue] over the labels, for one
    label. The empty label has left the loop before its last byte is read. *)
Definition checkLabel (label : string) : option error :=
  if String.length label <? 1 then Some errLabelTooShort
  else if maxLabelLength <? String.length label then Some errLabelTooLong
  else if negb (dnsLabelRegexp label) then Some errInvalidDNSCharacter
  else if bool_decide (lastByte label = Some "-"%char) then Some errInvalidDNSCharacter
  else if punycodeRegexp label then
    match ToUnicode label with
    | None => Some errMalformedIDN
    | Some ulabel =>
        if negb (IsNormalString ulabel) then Some errMalformedIDN else None
    end
  else if idnReservedRegexp label then Some errInvalidRLDH
  else None.

(** The loop of [WillingToIssue] over the labels. *)
Fixpoint checkLabels (labels : list string) : option error :=
  match labels with
  | [] => None
  | label :: labels' =>
      match checkLabel label with
      | Some err => Some err
      | None => checkLabels labels'
      end
  end.

(** [WillingToIssue] *)
Definition WillingToIssue (pa : AuthorityImpl) (id : AcmeIdentifier)
  : option error :=
  if negb (String.eqb (Type_ id) IdentifierDNS) then Some errInvalidIdentifier
  else
  let domain := Value id in
  if String.eqb domain EmptyString then Some errEmptyName
  else if strings.HasPrefix domain "*." then Some errWildcardNotSupported
  else if negb (forallb isDNSCharacter (list_ascii_of_string domain))
  then Some errInvalidDNSCharacter
  else if maxDNSIdentifierLength <? String.length domain then Some errNameTooLong
  else if ParseIP domain then Some errIPAddress
  else if strings.HasSuffix domain "." then Some errNameEndsInDot
  else
  let labels := strings.Split domain "."%char in
  if maxLabels <? length labels then Some errTooManyLabels
  else if length labels <? 2 then Some errTooFewLabels
  else
  match checkLabels labels with
  | Some err => Some err
  | None =>
      match ExtractSuffix domain with
      | None => Some errNonPublic
      | Some icannTLD =>
          if String.eqb icannTLD domain then Some errICANNTLD
          else
            match checkHostLists pa domain with
            | Some err => Some err
            | None => None
            end
      end
  end.

(** ** The wildcard validator *)

(** [WillingToIssueWildcard] *)
Definition WillingToIssueWildcard (pa : AuthorityImpl) (ident : AcmeIdentifier)
  : option error :=
  if negb (String.eqb (Type_ ident) IdentifierDNS) then Some errInvalidIdentifier
  else
  let rawDomain := Value ident in
  if 1 <? strings.Count rawDomain "*"%char then Some errTooManyWildcards
  else if strings.Count rawDomain "*"%char =? 1 then
    if negb (strings.HasPrefix rawDomain "*.") then Some errMalformedWildcard
    else
    let baseDomain := strings.TrimPrefix rawDomain "*." in
    match ExtractSuffix baseDomain with
    | None => Some errNonPublic
    | Some icannTLD =>
        if String.eqb baseDomain icannTLD then Some errICANNTLDWildcard
        else
          match checkWildcardHostList pa baseDomain with
          | Some err => Some err
          | None =>
              WillingToIssue pa {| Type_ := IdentifierDNS;
                                   Value := "x." +:+ baseDomain |}
          end
    end
  else WillingToIssue pa ident.

(** ** The challenge selector *)

(** [ChallengeTypeEnabled] *)
Definition ChallengeTypeEnabled (pa : AuthorityImpl) (t : string) (regID : Z)
  : bool :=
  index (enabledChallenges pa) t ||
  match enabledChallengesWhitelist pa with
  | Some wl =>
      match wl !! t with
      | Some accounts => index (Some accounts) regID
      | None => false
      end
  | None => false
  end.

(** [append(challenges, mk(token))] when [cond] holds. *)
Definition appendIf (cond : bool) (mk : string -> Entropy -> Challenge * Entropy)
    (token : string) (st : list Challenge * Entropy) : list Challenge * Entropy :=
  if cond then
    let '(c, ent) := mk token (snd st) in (fst st ++ [c], ent)
  else st.

(** [ChallengesFor] up to the shuffle: the token, and the challenges that
    are offered or the error for a wildcard name without DNS-01. *)
Definition selectChallenges (pa : AuthorityImpl) (identifier : AcmeIdentifier)
    (regID : Z) (revalidation : bool) (ent : Entropy)
  : (error + list Challenge) * Entropy :=
  let '(token, ent) :=
    if featureEnabled NewAuthorizationSchema then NewToken ent
    else (EmptyString, ent) in
  if strings.HasPrefix (Value identifier) "*." then
    if negb (ChallengeTypeEnabled pa ChallengeTypeDNS01 regID)
    then (inl errWildcardNoDNS01, ent)
    else let '(c, ent) := DNSChallenge01 token ent in (inr [c], ent)
  else
    let st := ([], ent) in
    let st := appendIf (ChallengeTypeEnabled pa ChallengeTypeHTTP01 regID)
                HTTPChallenge01 token st in
    let st := appendIf (ChallengeTypeEnabled pa ChallengeTypeTLSSNI01 regID ||
                        (featureEnabled TLSSNIRevalidation && revalidation))
                TLSSNIChallenge01 token st in
    let st := appendIf (ChallengeTypeEnabled pa ChallengeTypeTLSALPN01 regID)
                TLSALPNChallenge01 token st in
    let st := appendIf (ChallengeTypeEnabled pa ChallengeTypeDNS01 regID)
                DNSChallenge01 token st in
    (inr (fst st), snd st).

(** The zero value of [core.Challenge], which [make] fills a slice with. *)
Definition zeroChallenge : Challenge :=
  {| chType := EmptyString; chToken := EmptyString |}.

(** The first loop of the shuffle, from index [i] on: [shuffled[i] =
    challenges[challIdx]] and [combinations[i] = []int{i}]. [None] is the
    run-time failure of an index out of range. *)
Fixpoint shuffleLoop (challenges : list Challenge) (i : nat) (perm : list nat)
    (shuffled : list Challenge) (combinations : list (list nat))
  : option (list Challenge * list (list nat)) :=
  match perm with
  | [] => Some (shuffled, combinations)
  | challIdx :: perm' =>
      match challenges !! challIdx with
      | None => None
      | Some c =>
          if (i <? length shuffled) && (i <? length combinations) then
            shuffleLoop challenges (S i) perm'
                        (<[i := c]> shuffled) (<[i := [i]]> combinations)
          else None
      end
  end.

(** The second loop of the shuffle: [shuffledCombos[i] =
    combinations[comboIdx]]. *)
Fixpoint comboLoop (combinations : list (list nat)) (i : nat) (perm : list nat)
    (shuffledCombos : list (list nat)) : option (list (list nat)) :=
  match perm with
  | [] => Some shuffledCombos
  | comboIdx :: perm' =>
      match combinations !! comboIdx with
      | None => None
      | Some combo =>
          if i <? length shuffledCombos then
            comboLoop combinations (S i) perm' (<[i := combo]> shuffledCombos)
          else None
      end
  end.

(** The shuffle of [ChallengesFor]: two draws from the generator. *)
Definition shuffleChallenges (rng : Rng) (challenges : list Challenge)
  : option (list Challenge * list (list nat) * Rng) :=
  let shuffled := replicate (length challenges) zeroChallenge in
  let combinations := replicate (length challenges) ([] : list nat) in
  let '(perm1, rng) := Perm rng (length challenges) in
  match shuffleLoop challenges 0 perm1 shuffled combinations with
  | None => None
  | Some (shuffled, combinations) =>
      let shuffledCombos := replicate (length combinations) ([] : list nat) in
      let '(perm2, rng) := Perm rng (length combinations) in
      match comboLoop combinations 0 perm2 shuffledCombos with
      | None => None
      | Some shuffledCombos => Some (shuffled, shuffledCombos, rng)
      end
  end.

Definition withRNG (pa : AuthorityImpl) (rng : Rng) : AuthorityImpl :=
  {| blacklist := blacklist pa;
     exactBlacklist := exactBlacklist pa;
     wildcardExactBlacklist := wildcardExactBlacklist pa;
     enabledChallenges := enabledChallenges pa;
     enabledChallengesWhitelist := enabledChallengesWhitelist pa;
     pseudoRNG := rng |}.

(** What [ChallengesFor] returns: the challenges, the combinations and the
    error; a nil slice is the empty list. *)
Record ChallengesResult := {
  resChallenges : list Challenge;
  resCombinations : list (list nat);
  resErr : option error
}.

(** [ChallengesFor]: the authority and the token source after the call, and
    the three results; [None] is a run-time failure. *)
Definition ChallengesFor (pa : AuthorityImpl) (identifier : AcmeIdentifier)
    (regID : Z) (revalidation : bool) (ent : Entropy)
  : option (AuthorityImpl * Entropy * ChallengesResult) :=
  match selectChallenges pa identifier regID revalidation ent with
  | (inl err, ent) =>
      Some (pa, ent, {| resChallenges := []; resCombinations := [];
                        resErr := Some err |})
  | (inr challenges, ent) =>
      match shuffleChallenges (pseudoRNG pa) challenges with
      | None => None
      | Some (shuffled, shuffledCombos, rng) =>
          Some (withRNG pa rng, ent,
                {| resChallenges := shuffled;
                   resCombinations := shuffledCombos;
                   resErr := None |})
      end
  end.

End Policy.

(** ** A concrete environment

    Stand-ins for the code outside the file, used for concrete runs: a
    policy document is its blacklist entries separated by commas, a
    semicolon, and its exact blacklist entries separated by commas; a
    whitelist document is the list of the account numbers allowed DNS-01; an
    IP address is a dotted quad; the public suffixes are com, org and net;
    the generator draws rotations. *)
Module Example.

Definition entries (s : string) : list string :=
  filter (fun e => e <> EmptyString) (strings.Split s ","%char).

Definition unmarshalBlacklist (b : list byte) : error + blacklistJSON :=
  match strings.Split (string_of_list_byte b) ";"%char with
  | [bl; ex] => inr {| Blacklist := entries bl; ExactBlacklist := entries ex |}
  | _ => inl (JSONError "unexpected end of JSON input")
  end.

Definition unmarshalWhitelist (b : list byte) : error + gmap string (list Z) :=
  inr {[ ChallengeTypeDNS01 := map (fun x => Z.of_N (Byte.to_N x)) b ]}.

Definition isDigit (c : ascii) : bool := byte_le "0"%char c && byte_le c "9"%char.

Definition octetValue (s : string) : nat :=
  fold_left (fun acc c => 10 * acc + (nat_of_ascii c - 48))
            (list_ascii_of_string s) 0.

Definition isOctet (s : string) : bool :=
  if (1 <=? String.length s) && (String.length s <=? 3) &&
     forallb isDigit (list_ascii_of_string s)
  then octetValue s <=? 255 else false.

Definition parseIP (s : string) : bool :=
  match strings.Split s "."%char with
  | [a; b; c; d] => isOctet a && isOctet b && isOctet c && isOctet d
  | _ => false
  end.

Definition extractSuffix (domain : string) : option string :=
  match last (strings.Split domain "."%char) with
  | Some tld =>
      if bool_decide (tld ∈ ["com"; "org"; "net"]) then Some tld else None
  | None => None
  end.

Definition perm (rng n : nat) : list nat * nat :=
  (rotate (rng mod n) (seq 0 n), S rng).

Definition newToken (ent : nat) : string * nat :=
  (String (ascii_of_nat (65 + ent mod 26)) EmptyString, S ent).

Definition newChallenge (t token : string) (ent : nat) : Challenge * nat :=
  if String.eqb token EmptyString then
    ({| chType := t; chToken := fst (newToken ent) |}, snd (newToken ent))
  else ({| chType := t; chToken := token |}, ent).

Definition env : External :=
  {| jsonUnmarshalBlacklist := unmarshalBlacklist;
     jsonUnmarshalWhitelist := unmarshalWhitelist;
     ParseIP := parseIP;
     ToUnicode := fun label => Some label;
     IsNormalString := fun _ => true;
     ExtractSuffix := extractSuffix;
     featureEnabled := fun _ => false;
     Rng := nat;
     NewSource := Z.to_nat;
     Perm := perm;
     Entropy := nat;
     NewToken := newToken;
     HTTPChallenge01 := newChallenge ChallengeTypeHTTP01;
     TLSSNIChallenge01 := newChallenge ChallengeTypeTLSSNI01;
     TLSALPNChallenge01 := newChallenge ChallengeTypeTLSALPN01;
     DNSChallenge01 := newChallenge ChallengeTypeDNS01 |}.

(** The four challenge types, globally enabled. *)
Definition allEnabled : option (gmap string bool) :=
  Some (<[ChallengeTypeHTTP01 := true]>
       (<[ChallengeTypeTLSSNI01 := true]>
       (<[ChallengeTypeTLSALPN01 := true]>
       (<[ChallengeTypeDNS01 := true]> ∅)))).

Definition dns (value : string) : AcmeIdentifier :=
  {| Type_ := IdentifierDNS; Value := value |}.

(** A policy document with one blacklist entry and one exact entry. *)
Definition policyDoc : list byte :=
  list_byte_of_string "example.com;evil.example.org".

(** What [policyDoc] decodes to. *)
Definition examplePolicy : blacklistJSON :=
  {| Blacklist := ["example.com"]; ExactBlacklist := ["evil.example.org"] |}.

(** The authority after loading [policyDoc]. *)
Definition loaded : AuthorityImpl (E := env) :=
  fst (loadHostnamePolicy (E := env) (New (E := env) allEnabled) policyDoc).

End Example.
Import Example.

(** ** Notions of the specification *)

(** [s] is a dot-delimited label suffix of [D]: the whole of [D], or what
    follows one of its dots. *)
Definition isLabelSuffix (s D : string) : Prop :=
  s = D \/ exists p, D = p +:+ String "."%char s.

(** [a] is a single label: it holds no dot. *)
Definition dotFree (a : string) : Prop := strings.Count a "."%char = 0.

(** [base] is [v] without its leftmost label. *)
Definition isDirectParent (base v : string) : Prop :=
  exists a, dotFree a /\ v = a +:+ String "."%char base.

(** [v] has fewer than two dot-delimited labels. *)
Definition singleLabel (v : string) : Prop :=
  length (strings.Split v "."%char) < 2.

(** An authority whose hostname policy is loaded and blocks nothing. *)
Definition permissive `{E : External} : AuthorityImpl :=
  {| blacklist := Some ∅;
     exactBlacklist := Some ∅;
     wildcardExactBlacklist := Some ∅;
     enabledChallenges := None;
     enabledChallengesWhitelist := None;
     pseudoRNG := NewSource 99 |}.

(** An identifier is otherwise valid when only the hostname policy can stand
    in its way: [WillingToIssue] accepts it under the policy that blocks
    nothing. *)
Definition otherwiseValid `{E : External} (id : AcmeIdentifier) : Prop :=
  WillingToIssue permissive id = None.

(** The authorities that have seen no successful load of a hostname policy:
    a new one, and what failed policy loads, whitelist loads and calls of
    [ChallengesFor] make of one. *)
Inductive neverLoaded `{E : External} : AuthorityImpl -> Prop :=
| neverLoaded_New challengeTypes :
    neverLoaded (New challengeTypes)
| neverLoaded_failed pa b err :
    neverLoaded pa ->
    snd (loadHostnamePolicy pa b) = Some err ->
    neverLoaded (fst (loadHostnamePolicy pa b))
| neverLoaded_whitelist pa b :
    neverLoaded pa ->
    neverLoaded (fst (loadChallengesWhitelist pa b))
| neverLoaded_challenges pa identifier regID revalidation ent pa' ent' res :
    neverLoaded pa ->
    ChallengesFor pa identifier regID revalidation ent = Some (pa', ent', res) ->
    neverLoaded pa'.

(** The authorities whose last successful load of a hostname policy was
    that of the document [bl]: the result of the load, and what failed
    policy loads, whitelist loads and calls of [ChallengesFor] make of it. *)
Inductive loadedWith `{E : External} (bl : blacklistJSON)
  : AuthorityImpl -> Prop :=
| loadedWith_load pa b pa' :
    jsonUnmarshalBlacklist b = inr bl ->
    loadHostnamePolicy pa b = (pa', None) ->
    loadedWith bl pa'
| loadedWith_failed pa b err :
    loadedWith bl pa ->
    snd (loadHostnamePolicy pa b) = Some err ->
    loadedWith bl (fst (loadHostnamePolicy pa b))
| loadedWith_whitelist pa b :
    loadedWith bl pa ->
    loadedWith bl (fst (loadChallengesWhitelist pa b))
| loadedWith_challenges pa identifier regID revalidation ent pa' ent' res :
    loadedWith bl pa ->
    ChallengesFor pa identifier regID revalidation ent = Some (pa', ent', res) ->
    loadedWith bl pa'.

(** *** The checks of the identifier validator, as a list

    Each check of the specification is a value of its own: [None] when the
    identifier passes it, its error otherwise. *)

(** The first failure of a list of checks. *)
Fixpoint firstFailure (checks : list (option error)) : option error :=
  match checks with
  | [] => None
  | Some err :: _ => Some err
  | None :: checks' => firstFailure checks'
  end.

Definition failWhen (cond : bool) (err : error) : option error :=
  if cond then Some err else None.

(** Checks 1 to 8: the type, the empty name, the wildcard prefix, the
    character set, the length, the IP literal, the trailing dot and the
    number of labels. *)
Definition checksBeforeLabels `{E : External} (id : AcmeIdentifier)
  : list (option error) :=
  let domain := Value id in
  let labels := strings.Split domain "."%char in
  [ failWhen (negb (String.eqb (Type_ id) IdentifierDNS)) errInvalidIdentifier;
    failWhen (String.eqb domain EmptyString) errEmptyName;
    failWhen (strings.HasPrefix domain "*.") errWildcardNotSupported;
    failWhen (negb (forallb isDNSCharacter (list_ascii_of_string domain)))
             errInvalidDNSCharacter;
    failWhen (maxDNSIdentifierLength <? String.length domain) errNameTooLong;
    failWhen (ParseIP domain) errIPAddress;
    failWhen (strings.HasSuffix domain ".") errNameEndsInDot;
    failWhen (maxLabels <? length labels) errTooManyLabels;
    failWhen (length labels <? 2) errTooFewLabels ].

(** Check 9 on one label: its length, its syntax, no hyphen at its end. *)
Definition labelSyntaxCheck (label : string) : option error :=
  firstFailure
    [ failWhen (String.length label <? 1) errLabelTooShort;
      failWhen (maxLabelLength <? String.length label) errLabelTooLong;
      failWhen (negb (dnsLabelRegexp label)) errInvalidDNSCharacter;
      failWhen (bool_decide (lastByte label = Some "-"%char))
               errInvalidDNSCharacter ].

(** Check 10 on one label: a label with the ACE prefix decodes to a string
    in normal form C, and no other label has the reserved form. *)
Definition labelIDNCheck `{E : External} (label : string) : option error :=
  if strings.HasPrefix label "xn--" then
    match ToUnicode label with
    | None => Some errMalformedIDN
    | Some ulabel => failWhen (negb (IsNormalString ulabel)) errMalformedIDN
    end
  else failWhen (idnReservedRegexp label) errInvalidRLDH.

(** Checks 11 and 12: the public suffix, and the hostname policy. *)
Definition checksAfterLabels `{E : External} (pa : AuthorityImpl)
    (id : AcmeIdentifier) : list (option error) :=
  let domain := Value id in
  [ match ExtractSuffix domain with
    | None => Some errNonPublic
    | Some icannTLD => failWhen (String.eqb icannTLD domain) errICANNTLD
    end;
    checkHostLists pa domain ].

(** The checks in the order of the specification: check 9 on every label,
    then check 10 on every label. *)
Definition checksInListedOrder `{E : External} (pa : AuthorityImpl)
    (id : AcmeIdentifier) : list (option error) :=
  let labels := strings.Split (Value id) "."%char in
  checksBeforeLabels id ++
  map labelSyntaxCheck labels ++ map labelIDNCheck labels ++
  checksAfterLabels pa id.

(** The checks label by label: checks 9 and 10 on the first label, then on
    the second, and so on. *)
Definition checksLabelByLabel `{E : External} (pa : AuthorityImpl)
    (id : AcmeIdentifier) : list (option error) :=
  let labels := strings.Split (Value id) "."%char in
  checksBeforeLabels id ++
  flat_map (fun label => [labelSyntaxCheck label; labelIDNCheck label]) labels ++
  checksAfterLabels pa id.

(** The errors [WillingToIssue] is documented to return. *)
Definition documentedErrors : list error :=
  [ errInvalidIdentifier; errEmptyName; errWildcardNotSupported;
    errInvalidDNSCharacter; errNameTooLong; errIPAddress; errNameEndsInDot;
    errTooManyLabels; errTooFewLabels; errLabelTooShort; errLabelTooLong;
    errMalformedIDN; errInvalidRLDH; errNonPublic; errICANNTLD;
    errBlacklisted ].

(** *** The challenge selector *)

(** What [rand.Perm] promises: a permutation of the integers below [n]. *)
Definition PermContract `{E : External} : Prop :=
  forall (rng : Rng) (n : nat), (Perm rng n).1 ≡ₚ seq 0 n.

(** What the challenge constructors of package [core] promise: a challenge
    of their own type. *)
Definition ChallengeTypeContract `{E : External} : Prop :=
  forall (token : string) (ent : Entropy),
    chType (HTTPChallenge01 token ent).1 = ChallengeTypeHTTP01 /\
    chType (TLSSNIChallenge01 token ent).1 = ChallengeTypeTLSSNI01 /\
    chType (TLSALPNChallenge01 token ent).1 = ChallengeTypeTLSALPN01 /\
    chType (DNSChallenge01 token ent).1 = ChallengeTypeDNS01.

(** The challenge types offered for a name that is no wildcard, in the
    order in which [ChallengesFor] considers them. *)
Definition offeredTypes `{E : External} (pa : AuthorityImpl) (regID : Z)
    (revalidation : bool) : list string :=
  (if ChallengeTypeEnabled pa ChallengeTypeHTTP01 regID
   then [ChallengeTypeHTTP01] else []) ++
  (if ChallengeTypeEnabled pa ChallengeTypeTLSSNI01 regID ||
      (featureEnabled TLSSNIRevalidation && revalidation)
   then [ChallengeTypeTLSSNI01] else []) ++
  (if ChallengeTypeEnabled pa ChallengeTypeTLSALPN01 regID
   then [ChallengeTypeTLSALPN01] else []) ++
  (if ChallengeTypeEnabled pa ChallengeTypeDNS01 regID
   then [ChallengeTypeDNS01] else []).

(** The challenge types offered for an identifier, or the error. *)
Definition offered `{E : External} (pa : AuthorityImpl)
    (identifier : AcmeIdentifier) (regID : Z) (revalidation : bool)
  : error + list string :=
  if strings.HasPrefix (Value identifier) "*." then
    if ChallengeTypeEnabled pa ChallengeTypeDNS01 regID
    then inr [ChallengeTypeDNS01] else inl errWildcardNoDNS01
  else inr (offeredTypes pa regID revalidation).

(** A combination that names one challenge. *)
Definition isSingleton (combination : list nat) : Prop :=
  exists i, combination = [i].

(** What a caller sees of the order of a result: the types of the
    challenges in order, the combinations, and the error. *)
Definition orderOf (res : ChallengesResult)
  : list string * list (list nat) * option error :=
  (chType <$> resChallenges res, resCombinations res, resErr res).

(** A run of the authority: the calls of [ChallengesFor] for a list of
    requests, one after the other; a run-time failure ends the run. *)
Fixpoint serve `{E : External} (pa : AuthorityImpl) (ent : Entropy)
    (requests : list (AcmeIdentifier * Z * bool))
  : list (option ChallengesResult) :=
  match requests with
  | [] => []
  | (identifier, regID, revalidation) :: requests' =>
      match ChallengesFor pa identifier regID revalidation ent with
      | None => [None]
      | Some (pa', ent', res) => Some res :: serve pa' ent' requests'
      end
  end.

(** *** Notions for the rest of the file *)

(** A byte of a label the validator accepts: a lower case letter, a digit
    or a hyphen. *)
Definition isLDH (c : ascii) : bool := isLowerAlnum c || Ascii.eqb c "-"%char.

(** A map used as a set: every key it holds maps to [true]. *)
Definition onlyTrue `{Countable K} (m : gmap K bool) : Prop :=
  forall k v, m !! k = Some v -> v = true.

(** A label the validator lets through: 1 to 63 bytes, a lower case letter
    or digit first, then lower case letters, digits and hyphens, no hyphen
    last; the reserved form only with the ACE prefix, and with the ACE
    prefix a label that decodes to a string in normal form C. *)
Definition wellFormedLabel `{E : External} (label : string) : Prop :=
  1 <= String.length label <= maxLabelLength /\
  (exists c rest,
     label = String c rest /\ isLowerAlnum c = true /\
     forallb isLDH (list_ascii_of_string rest) = true) /\
  lastByte label <> Some "-"%char /\
  (idnReservedRegexp label = true -> strings.HasPrefix label "xn--" = true) /\
  (strings.HasPrefix label "xn--" = true ->
     exists ulabel, ToUnicode label = Some ulabel /\ IsNormalString ulabel = true).

(** An error with a class: a malformed request, or the rejection of a
    blacklisted name or of a label of the reserved form. *)
Definition classified (err : error) : Prop :=
  errorType err = Some Malformed \/
  (errorType err = Some RejectedIdentifier /\
   (err = errBlacklisted \/ err = errInvalidRLDH)).

(** ** Facts about the string functions *)

Lemma append_nil (b : string) : EmptyString +:+ b = b.
Proof. reflexivity. Qed.

Lemma append_cons (x : ascii) (a b : string) :
  String x a +:+ b = String x (a +:+ b).
Proof. reflexivity. Qed.

Lemma string_app_assoc (a b c : string) : (a +:+ b) +:+ c = a +:+ (b +:+ c).
Proof.
  induction a as [|x a IH]; [done|]. rewrite !append_cons. by f_equal.
Qed.

Section StringFacts.
Variable sep : ascii.

Lemma Split_nonempty s : strings.Split s sep <> [].
Proof.
  destruct s as [|c s]; simpl; [discriminate|].
  destruct (Ascii.eqb c sep); [discriminate|].
  destruct (strings.Split s sep); discriminate.
Qed.

Lemma Split_length s : length (strings.Split s sep) = S (strings.Count s sep).
Proof.
  induction s as [|c s IH]; simpl; [reflexivity|].
  destruct (Ascii.eqb c sep); simpl; [by rewrite IH|].
  destruct (strings.Split s sep) eqn:Hs; simpl in *; [discriminate|done].
Qed.

Lemma Join_cons x l :
  l <> [] -> strings.Join (x :: l) sep = x +:+ String sep (strings.Join l sep).
Proof. destruct l; [done|reflexivity]. Qed.

Lemma Join_Split s : strings.Join (strings.Split s sep) sep = s.
Proof.
  induction s as [|c s IH]; simpl; [reflexivity|].
  destruct (Ascii.eqb c sep) eqn:Hc.
  - apply Ascii.eqb_eq in Hc as ->.
    rewrite Join_cons by apply Split_nonempty. by rewrite IH.
  - destruct (strings.Split s sep) as [|l ls] eqn:Hs.
    + by apply Split_nonempty in Hs.
    + destruct ls as [|l' ls]; [simpl in *; by rewrite <- IH|].
      rewrite Join_cons by done. rewrite Join_cons in IH by done.
      by rewrite append_cons, IH.
Qed.

Lemma Split_app p e :
  strings.Split (p +:+ String sep e) sep
  = strings.Split p sep ++ strings.Split e sep.
Proof.
  induction p as [|c p IH]; [rewrite append_nil|rewrite append_cons]; simpl.
  - by rewrite Ascii.eqb_refl.
  - destruct (Ascii.eqb c sep); [by rewrite IH|].
    rewrite IH. destruct (strings.Split p sep) as [|l ls] eqn:Hp; [|done].
    by apply Split_nonempty in Hp.
Qed.

Lemma Join_app l1 l2 :
  l1 <> [] -> l2 <> [] ->
  strings.Join (l1 ++ l2) sep
  = strings.Join l1 sep +:+ String sep (strings.Join l2 sep).
Proof.
  intros H1 H2. induction l1 as [|x l1 IH]; [done|].
  destruct l1 as [|y l1].
  - simpl app. by rewrite Join_cons.
  - change ((x :: y :: l1) ++ l2) with (x :: ((y :: l1) ++ l2)).
    rewrite !Join_cons by done. rewrite IH by done.
    by rewrite string_app_assoc.
Qed.

Lemma SplitN2_cases v :
  (strings.Count v sep = 0 /\ strings.SplitN2 v sep = [v]) \/
  (exists a rest, strings.SplitN2 v sep = [a; rest] /\
                  v = a +:+ String sep rest /\ strings.Count a sep = 0).
Proof.
  induction v as [|c v IH]; simpl; [by left|].
  destruct (Ascii.eqb c sep) eqn:Hc.
  - right. exists EmptyString, v. apply Ascii.eqb_eq in Hc as ->. done.
  - destruct IH as [[H0 ->]|(a & rest & -> & -> & H0)].
    + by left.
    + right. exists (String c a), rest. simpl. by rewrite Hc, H0.
Qed.

Lemma SplitN2_app a rest :
  strings.Count a sep = 0 ->
  strings.SplitN2 (a +:+ String sep rest) sep = [a; rest].
Proof.
  induction a as [|c a IH]; [rewrite append_nil|rewrite append_cons]; simpl.
  - by rewrite Ascii.eqb_refl.
  - destruct (Ascii.eqb c sep); [done|]. intros H. by rewrite IH.
Qed.

Lemma Count_app a b :
  strings.Count (a +:+ b) sep = strings.Count a sep + strings.Count b sep.
Proof.
  induction a as [|c a IH]; [done|]. rewrite append_cons. simpl.
  rewrite IH. lia.
Qed.

End StringFacts.

Lemma HasPrefix_app (p s : string) : strings.HasPrefix (p +:+ s) p = true.
Proof.
  induction p as [|c p IH]; [done|]. rewrite append_cons. simpl.
  by rewrite Ascii.eqb_refl.
Qed.

Lemma HasPrefix_inv (s p : string) :
  strings.HasPrefix s p = true -> s = p +:+ strings.dropBytes (String.length p) s.
Proof.
  revert s. induction p as [|c p IH]; intros s; simpl; [by destruct s|].
  destruct s as [|d s]; [done|].
  destruct (Ascii.eqb c d) eqn:Hc; [|done].
  apply Ascii.eqb_eq in Hc as ->. intros H. simpl.
  by rewrite append_cons, <- IH.
Qed.

Lemma TrimPrefix_app (p s : string) : strings.TrimPrefix (p +:+ s) p = s.
Proof.
  unfold strings.TrimPrefix. rewrite HasPrefix_app.
  induction p as [|c p IH]; [by destruct s|by rewrite append_cons].
Qed.

(** The label suffixes the loop of [checkHostLists] joins are the label
    suffixes of the specification. *)
Lemma labelSuffix_iff (D s : string) :
  (exists i, i < length (strings.Split D "."%char) /\
             strings.Join (drop i (strings.Split D "."%char)) "."%char = s)
  <-> isLabelSuffix s D.
Proof.
  split.
  - intros (i & Hi & Hs). destruct i as [|i].
    + left. rewrite drop_0 in Hs. by rewrite Join_Split in Hs.
    + right. exists (strings.Join (take (S i) (strings.Split D "."%char)) "."%char).
      rewrite <- Hs, <- Join_app.
      * by rewrite take_drop, Join_Split.
      * destruct (strings.Split D "."%char); simpl in *; [lia|done].
      * intros Hd. apply (f_equal length) in Hd.
        rewrite length_drop in Hd. simpl in Hd. lia.
  - intros [->|(p & ->)].
    + exists 0. split.
      * rewrite Split_length. lia.
      * by rewrite drop_0, Join_Split.
    + exists (length (strings.Split p "."%char)). rewrite Split_app. split.
      * rewrite length_app, (Split_length _ s). lia.
      * by rewrite drop_app_length, Join_Split.
Qed.

(** ** Facts about the maps of the hostname policy *)

Lemma index_insert `{Countable K} (m : gmap K bool) (v k : K) :
  index (Some (<[v := true]> m)) k = true <-> v = k \/ index (Some m) k = true.
Proof.
  unfold index. destruct (decide (v = k)) as [->|Hne].
  - rewrite lookup_insert_eq. simpl. tauto.
  - rewrite lookup_insert_ne by done. split; [tauto|]. by intros [?|?].
Qed.

Lemma index_empty `{Countable K} (k : K) :
  index (Some (∅ : gmap K bool)) k = false.
Proof. unfold index. by rewrite lookup_empty. Qed.

Section Properties.
Context `{E : External}.

Lemma buildNameMap_index l m k :
  index (Some (buildNameMap l m)) k = true <-> k ∈ l \/ index (Some m) k = true.
Proof.
  revert m. induction l as [|v l IH]; intros m; simpl.
  - split; [tauto|]. intros [Hin|?]; [|done]. by apply elem_of_nil in Hin.
  - rewrite IH, index_insert, elem_of_cons. intuition congruence.
Qed.

Lemma buildExactMaps_index l em wm em' wm' :
  buildExactMaps l em wm = inr (em', wm') ->
  (forall v, v ∈ l -> ~ singleLabel v) /\
  (forall k, index (Some em') k = true <-> k ∈ l \/ index (Some em) k = true) /\
  (forall k, index (Some wm') k = true <->
             (exists v, v ∈ l /\ isDirectParent k v) \/ index (Some wm) k = true).
Proof.
  revert em wm. induction l as [|v l IH]; intros em wm; simpl.
  - intros [= <- <-]. split; [|split].
    + intros v Hin. by apply elem_of_nil in Hin.
    + intros k. split; [tauto|]. intros [Hin|?]; [|done].
      by apply elem_of_nil in Hin.
    + intros k. split; [tauto|]. intros [(v & Hin & _)|?]; [|done].
      by apply elem_of_nil in Hin.
  - destruct (SplitN2_cases "."%char v) as [[H0 Hs]|(a & rest & Hs & Hv & Ha)];
      rewrite Hs; [discriminate|].
    intros Hb. destruct (IH _ _ Hb) as (IH1 & IH2 & IH3). split; [|split].
    + intros v' [->|Hin]%elem_of_cons; [|by apply IH1].
      unfold singleLabel. rewrite Split_length, Hv, Count_app. simpl. lia.
    + intros k. rewrite IH2, index_insert, elem_of_cons. intuition congruence.
    + intros k. rewrite IH3, index_insert. split.
      * intros [(v' & Hin & Hp)|[<-|Hi]].
        -- left. exists v'. split; [by apply elem_of_cons; right|done].
        -- left. exists v. split; [by apply elem_of_cons; left|].
           by exists a.
        -- by right.
      * intros [(v' & [->|Hin]%elem_of_cons & Hp)|Hi].
        -- right. left. destruct Hp as (a' & Ha' & Hv').
           rewrite Hv' in Hs. rewrite SplitN2_app in Hs by done. congruence.
        -- left. by exists v'.
        -- by right; right.
Qed.

Lemma buildExactMaps_error l em wm err :
  buildExactMaps l em wm = inl err ->
  exists v, v ∈ l /\ singleLabel v /\ err = errMalformedExact v.
Proof.
  revert em wm. induction l as [|v l IH]; intros em wm; simpl; [discriminate|].
  destruct (SplitN2_cases "."%char v) as [[H0 Hs]|(a & rest & Hs & Hv & Ha)];
    rewrite Hs.
  - intros [= <-]. exists v. split; [by apply elem_of_cons; left|].
    split; [|done]. unfold singleLabel. rewrite Split_length, H0. lia.
  - intros (v' & Hin & Hv')%IH. exists v'. split; [|done].
    by apply elem_of_cons; right.
Qed.

Lemma buildExactMaps_single l em wm v :
  v ∈ l -> singleLabel v -> exists err, buildExactMaps l em wm = inl err.
Proof.
  intros Hin Hv. destruct (buildExactMaps l em wm) as [err|[em' wm']] eqn:Hb.
  - by exists err.
  - apply buildExactMaps_index in Hb as (H1 & _). by apply H1 in Hin.
Qed.

(** What a successful load leaves behind. *)
Lemma loadHostnamePolicy_success pa b pa' :
  loadHostnamePolicy pa b = (pa', None) ->
  exists bl em wm,
    jsonUnmarshalBlacklist b = inr bl /\ Blacklist bl <> [] /\
    buildExactMaps (ExactBlacklist bl) ∅ ∅ = inr (em, wm) /\
    blacklist pa' = Some (buildNameMap (Blacklist bl) ∅) /\
    exactBlacklist pa' = Some em /\
    wildcardExactBlacklist pa' = Some wm /\
    enabledChallenges pa' = enabledChallenges pa /\
    enabledChallengesWhitelist pa' = enabledChallengesWhitelist pa /\
    pseudoRNG pa' = pseudoRNG pa.
Proof.
  unfold loadHostnamePolicy.
  destruct (jsonUnmarshalBlacklist b) as [err|bl]; [discriminate|].
  destruct (Blacklist bl) as [|v l] eqn:Hbl; [discriminate|]. simpl.
  destruct (buildExactMaps (ExactBlacklist bl) ∅ ∅) as [err|[em wm]] eqn:Hb;
    [discriminate|].
  intros [= <-]. exists bl, em, wm. rewrite Hbl. by repeat split.
Qed.

(** A failed load leaves the authority as it was. *)
Lemma loadHostnamePolicy_failure pa b err :
  snd (loadHostnamePolicy pa b) = Some err -> fst (loadHostnamePolicy pa b) = pa.
Proof.
  unfold loadHostnamePolicy.
  destruct (jsonUnmarshalBlacklist b) as [e|bl]; [done|].
  destruct (length (Blacklist bl) =? 0); [done|].
  destruct (buildExactMaps (ExactBlacklist bl) ∅ ∅) as [e|[em wm]]; done.
Qed.

Lemma checkSuffixes_cases bl labels idxs :
  (checkSuffixes bl labels idxs = Some errBlacklisted /\
   exists i, i ∈ idxs /\
             index bl (strings.Join (drop i labels) "."%char) = true) \/
  (checkSuffixes bl labels idxs = None /\
   forall i, i ∈ idxs ->
             index bl (strings.Join (drop i labels) "."%char) = false).
Proof.
  induction idxs as [|i idxs IH]; simpl.
  - right. split; [done|]. intros i Hin. by apply elem_of_nil in Hin.
  - destruct (index bl (strings.Join (drop i labels) "."%char)) eqn:Hi.
    + left. split; [done|]. exists i. split; [by apply elem_of_cons; left|done].
    + destruct IH as [[-> (j & Hj & Hjt)]|[-> Hall]].
      * left. split; [done|]. exists j. split; [by apply elem_of_cons; right|done].
      * right. split; [done|]. by intros j [->|Hj]%elem_of_cons; [|apply Hall].
Qed.

(** [checkHostLists] on a loaded authority, in terms of its maps. *)
Lemma checkHostLists_loaded pa nameMap D :
  blacklist pa = Some nameMap ->
  (checkHostLists pa D = Some errBlacklisted /\
   ((exists s, isLabelSuffix s D /\ index (Some nameMap) s = true) \/
    index (exactBlacklist pa) D = true)) \/
  (checkHostLists pa D = None /\
   (forall s, isLabelSuffix s D -> index (Some nameMap) s = false) /\
   index (exactBlacklist pa) D = false).
Proof.
  intros Hbl. unfold checkHostLists. rewrite Hbl.
  destruct (checkSuffixes_cases (Some nameMap) (strings.Split D "."%char)
              (seq 0 (length (strings.Split D "."%char))))
    as [[-> (i & Hi & Hit)]|[-> Hall]].
  - left. split; [done|]. left.
    exists (strings.Join (drop i (strings.Split D "."%char)) "."%char).
    split; [|done]. apply labelSuffix_iff. exists i. split; [|done].
    apply elem_of_seq in Hi. lia.
  - assert (forall s, isLabelSuffix s D -> index (Some nameMap) s = false) as Hs.
    { intros s (i & Hi & <-)%labelSuffix_iff. apply Hall, elem_of_seq. lia. }
    destruct (index (exactBlacklist pa) D) eqn:Hex.
    + left. split; [done|]. by right.
    + right. done.
Qed.

(** Before the blacklist, [WillingToIssue] does not look at the authority. *)
Lemma WillingToIssue_otherwiseValid pa id :
  otherwiseValid id -> WillingToIssue pa id = checkHostLists pa (Value id).
Proof.
  unfold otherwiseValid, WillingToIssue.
  repeat match goal with
         | |- context [if ?c then _ else _] => destruct c; [discriminate|]
         end.
  cbv zeta.
  repeat match goal with
         | |- context [if ?c then _ else _] => destruct c; [discriminate|]
         end.
  destruct (checkLabels _); [discriminate|].
  destruct (ExtractSuffix _); [|discriminate].
  destruct (String.eqb _ _); [discriminate|].
  intros _. by destruct (checkHostLists pa (Value id)).
Qed.

Lemma checkWildcardHostList_loaded pa nameMap base :
  blacklist pa = Some nameMap ->
  checkWildcardHostList pa base
  = if index (wildcardExactBlacklist pa) base then Some errBlacklisted else None.
Proof. intros Hbl. unfold checkWildcardHostList. by rewrite Hbl. Qed.

Lemma neverLoaded_blacklist pa : neverLoaded pa -> blacklist pa = None.
Proof.
  induction 1 as [cts|pa b err _ IH Herr|pa b _ IH
                  |pa id regID reval ent pa' ent' res _ IH Hc].
  - reflexivity.
  - by rewrite (loadHostnamePolicy_failure _ _ _ Herr).
  - unfold loadChallengesWhitelist.
    by destruct (jsonUnmarshalWhitelist b).
  - unfold ChallengesFor in Hc.
    destruct (selectChallenges pa id regID reval ent) as [[err|chs] ent0].
    + by injection Hc as <- _ _.
    + destruct (shuffleChallenges (pseudoRNG pa) chs) as [[[sh co] rng]|];
        [|discriminate].
      by injection Hc as <- _ _.
Qed.

Lemma ChallengesFor_policy pa id regID reval ent pa' ent' res :
  ChallengesFor pa id regID reval ent = Some (pa', ent', res) ->
  blacklist pa' = blacklist pa /\
  exactBlacklist pa' = exactBlacklist pa /\
  wildcardExactBlacklist pa' = wildcardExactBlacklist pa.
Proof.
  unfold ChallengesFor.
  destruct (selectChallenges pa id regID reval ent) as [[err|chs] ent0].
  - by intros [= <- _ _].
  - destruct (shuffleChallenges (pseudoRNG pa) chs) as [[[sh co] rng]|];
      [|discriminate].
    by intros [= <- _ _].
Qed.

(** The three maps of an authority loaded with [bl]. *)
Lemma loadedWith_maps bl pa :
  loadedWith bl pa ->
  exists em wm,
    buildExactMaps (ExactBlacklist bl) ∅ ∅ = inr (em, wm) /\
    blacklist pa = Some (buildNameMap (Blacklist bl) ∅) /\
    exactBlacklist pa = Some em /\
    wildcardExactBlacklist pa = Some wm.
Proof.
  induction 1 as [pa b pa' Hb Hload|pa b err _ IH Herr|pa b _ IH
                  |pa id regID reval ent pa' ent' res _ IH Hc].
  - destruct (loadHostnamePolicy_success _ _ _ Hload)
      as (bl' & em & wm & Hb' & _ & Hmaps & Hbl & Hex & Hwild & _).
    rewrite Hb in Hb'. injection Hb' as <-. by exists em, wm.
  - by rewrite (loadHostnamePolicy_failure _ _ _ Herr).
  - unfold loadChallengesWhitelist. by destruct (jsonUnmarshalWhitelist b).
  - destruct (ChallengesFor_policy _ _ _ _ _ _ _ _ Hc) as (-> & -> & ->).
    exact IH.
Qed.

Lemma WillingToIssue_notLoaded pa id :
  blacklist pa = None -> WillingToIssue pa id <> None.
Proof.
  intros Hbl. unfold WillingToIssue.
  repeat match goal with
         | |- context [if ?c then _ else _] => destruct c; [discriminate|]
         end.
  cbv zeta.
  repeat match goal with
         | |- context [if ?c then _ else _] => destruct c; [discriminate|]
         end.
  destruct (checkLabels _); [discriminate|].
  destruct (ExtractSuffix _); [|discriminate].
  destruct (String.eqb _ _); [discriminate|].
  unfold checkHostLists. rewrite Hbl. discriminate.
Qed.

(** The wildcard validator on a name with one wildcard, in front. *)
Lemma WillingToIssueWildcard_base pa ident base :
  Type_ ident = IdentifierDNS ->
  Value ident = "*." +:+ base ->
  strings.Count base "*"%char = 0 ->
  WillingToIssueWildcard pa ident =
    match ExtractSuffix base with
    | None => Some errNonPublic
    | Some icannTLD =>
        if String.eqb base icannTLD then Some errICANNTLDWildcard
        else match checkWildcardHostList pa base with
             | Some err => Some err
             | None => WillingToIssue pa {| Type_ := IdentifierDNS;
                                            Value := "x." +:+ base |}
             end
    end.
Proof.
  intros Ht Hv Hc. unfold WillingToIssueWildcard. rewrite Ht, Hv.
  rewrite String.eqb_refl. cbn [negb].
  rewrite Count_app, Hc, TrimPrefix_app, HasPrefix_app. reflexivity.
Qed.

Lemma WillingToIssueWildcard_notLoaded pa id :
  blacklist pa = None -> WillingToIssueWildcard pa id <> None.
Proof.
  intros Hbl. unfold WillingToIssueWildcard.
  destruct (negb _); [discriminate|]. cbv zeta.
  destruct (1 <? _); [discriminate|].
  destruct (_ =? 1); [|by apply WillingToIssue_notLoaded].
  destruct (negb _); [discriminate|].
  destruct (ExtractSuffix _); [|discriminate].
  destruct (String.eqb _ _); [discriminate|].
  unfold checkWildcardHostList. rewrite Hbl. discriminate.
Qed.

Lemma not_singleLabel_parent v :
  ~ singleLabel v -> exists base, isDirectParent base v.
Proof.
  intros Hv. destruct (SplitN2_cases "."%char v) as [[H0 _]|(a & rest & _ & -> & Ha)].
  - exfalso. apply Hv. unfold singleLabel. rewrite Split_length, H0. lia.
  - exists rest, a. done.
Qed.

(** ** The hostname policy store *)

(** C1: once a hostname policy has been loaded (and whatever failed
    reloads, whitelist loads and challenge selections follow),
    checkHostLists fails with the blacklisted error exactly when a
    dot-delimited label suffix of
    the domain is an entry of the blacklist or the domain is an entry of the
    exact blacklist, and succeeds otherwise; WillingToIssue returns the same
    on an otherwise valid identifier. An entry of the blacklist blocks itself
    and every name that ends in a dot and the entry; an entry of the exact
    blacklist blocks itself; the entry example.com alone does not block
    myexample.com. *)
Theorem checkHostLists_blacklisted_iff bl pa' :
  loadedWith bl pa' ->
  (forall D,
     (checkHostLists pa' D = Some errBlacklisted <->
        (exists s, isLabelSuffix s D /\ s ∈ Blacklist bl) \/
        D ∈ ExactBlacklist bl) /\
     (checkHostLists pa' D = Some errBlacklisted \/ checkHostLists pa' D = None) /\
     (forall id, Value id = D -> otherwiseValid id ->
                 WillingToIssue pa' id = checkHostLists pa' D) /\
     (D ∈ Blacklist bl ->
        checkHostLists pa' D = Some errBlacklisted /\
        forall p, checkHostLists pa' (p +:+ String "."%char D)
                  = Some errBlacklisted) /\
     (D ∈ ExactBlacklist bl -> checkHostLists pa' D = Some errBlacklisted)) /\
  ((forall s, s ∈ Blacklist bl -> s = "example.com") ->
   "myexample.com" ∉ ExactBlacklist bl ->
   checkHostLists pa' "myexample.com" = None).
Proof.
  intros (em & wm & Hmaps & Hbl & Hex & _)%loadedWith_maps.
  destruct (buildExactMaps_index _ _ _ _ _ Hmaps) as (_ & Hem & _).
  assert (forall s, index (Some (buildNameMap (Blacklist bl) ∅)) s = true
                    <-> s ∈ Blacklist bl) as Hname.
  { intros s. rewrite buildNameMap_index, index_empty. intuition discriminate. }
  assert (forall k, index (exactBlacklist pa') k = true <-> k ∈ ExactBlacklist bl)
    as Hexact.
  { intros k. rewrite Hex, Hem, index_empty. intuition discriminate. }
  assert (forall D,
     checkHostLists pa' D = Some errBlacklisted <->
        (exists s, isLabelSuffix s D /\ s ∈ Blacklist bl) \/
        D ∈ ExactBlacklist bl) as Hiff.
  { intros D.
    destruct (checkHostLists_loaded pa' _ D Hbl)
      as [[-> Hyes]|(-> & Hno & Hnoex)].
    - split; [intros _|done].
      destruct Hyes as [(s & Hs & Hi)|Hi].
      + left. exists s. by rewrite <- Hname.
      + right. by apply Hexact.
    - split; [discriminate|].
      intros [(s & Hs & Hi)|Hi].
      + apply Hname in Hi. rewrite (Hno s Hs) in Hi. discriminate.
      + apply Hexact in Hi. rewrite Hnoex in Hi. discriminate. }
  assert (forall D, checkHostLists pa' D = Some errBlacklisted \/
                    checkHostLists pa' D = None) as Htwo.
  { intros D. destruct (checkHostLists_loaded pa' _ D Hbl) as [[-> _]|[-> _]];
      [by left|by right]. }
  split.
  - intros D. split; [apply Hiff|]. split; [apply Htwo|]. split; [|split].
    + intros id <- Hid. by apply WillingToIssue_otherwiseValid.
    + intros HD. split.
      * apply Hiff. left. exists D. split; [by left|done].
      * intros p. apply Hiff. left. exists D. split; [|done].
        right. by exists p.
    + intros HD. apply Hiff. by right.
  - intros Honly Hnot. destruct (Htwo "myexample.com") as [Hyes|Hnone]; [|done].
    exfalso. apply Hiff in Hyes as [(s & Hs & Hi)|Hi]; [|done].
    apply Honly in Hi as ->.
    destruct Hs as [Heq|(p & Hp)]; [discriminate|].
    apply (f_equal (fun d => length (strings.Split d "."%char))) in Hp.
    rewrite Split_app, length_app in Hp.
    pose proof (Split_length "."%char p) as Hlen. simpl in Hp. lia.
Qed.

(** C2: an authority that has seen no successful load of a hostname policy
    fails every check closed: checkHostLists and checkWildcardHostList return
    the not yet loaded error for every domain, and neither WillingToIssue nor
    WillingToIssueWildcard returns success for any identifier. *)
Theorem neverLoaded_fails_closed pa :
  neverLoaded pa ->
  forall domain id,
    checkHostLists pa domain = Some errNotLoaded /\
    checkWildcardHostList pa domain = Some errNotLoaded /\
    WillingToIssue pa id <> None /\
    WillingToIssueWildcard pa id <> None.
Proof.
  intros Hbl%neverLoaded_blacklist domain id.
  unfold checkHostLists, checkWildcardHostList. rewrite Hbl.
  repeat split.
  - by apply WillingToIssue_notLoaded.
  - by apply WillingToIssueWildcard_notLoaded.
Qed.

(** C3: loadHostnamePolicy fails with the no entries error when the parsed
    Blacklist is empty and, the Blacklist not being empty, with the malformed
    entry error of an ExactBlacklist entry that has fewer than two labels
    when there is one; whenever it fails the authority is unchanged, and when
    it succeeds the three sets are exactly those of the document. *)
Theorem loadHostnamePolicy_all_or_nothing pa b :
  (forall bl, jsonUnmarshalBlacklist b = inr bl -> Blacklist bl = [] ->
     loadHostnamePolicy pa b = (pa, Some errNoEntries)) /\
  (forall bl v, jsonUnmarshalBlacklist b = inr bl -> Blacklist bl <> [] ->
     v ∈ ExactBlacklist bl -> singleLabel v ->
     exists v', v' ∈ ExactBlacklist bl /\ singleLabel v' /\
       loadHostnamePolicy pa b = (pa, Some (errMalformedExact v'))) /\
  (forall err, snd (loadHostnamePolicy pa b) = Some err ->
     fst (loadHostnamePolicy pa b) = pa) /\
  (snd (loadHostnamePolicy pa b) = None ->
     exists bl, jsonUnmarshalBlacklist b = inr bl /\
       forall k,
         (index (blacklist (fst (loadHostnamePolicy pa b))) k = true
            <-> k ∈ Blacklist bl) /\
         (index (exactBlacklist (fst (loadHostnamePolicy pa b))) k = true
            <-> k ∈ ExactBlacklist bl) /\
         (index (wildcardExactBlacklist (fst (loadHostnamePolicy pa b))) k = true
            <-> exists v, v ∈ ExactBlacklist bl /\ isDirectParent k v)).
Proof.
  split; [|split; [|split]].
  - intros bl Hb Hnil. unfold loadHostnamePolicy. by rewrite Hb, Hnil.
  - intros bl v Hb Hne Hin Hv. unfold loadHostnamePolicy. rewrite Hb.
    destruct (Blacklist bl) as [|x l]; [done|]. simpl.
    destruct (buildExactMaps_single _ ∅ ∅ _ Hin Hv) as [err Herr].
    rewrite Herr.
    apply buildExactMaps_error in Herr as (v' & Hin' & Hv' & ->).
    by exists v'.
  - apply loadHostnamePolicy_failure.
  - destruct (loadHostnamePolicy pa b) as [pa' oerr] eqn:Hload. simpl.
    intros ->.
    destruct (loadHostnamePolicy_success _ _ _ Hload)
      as (bl & em & wm & Hb & _ & Hmaps & -> & -> & -> & _).
    destruct (buildExactMaps_index _ _ _ _ _ Hmaps) as (_ & Hem & Hwm).
    exists bl. split; [done|]. intros k. split; [|split].
    + rewrite buildNameMap_index, index_empty. intuition discriminate.
    + rewrite Hem, index_empty. intuition discriminate.
    + rewrite Hwm, index_empty. intuition discriminate.
Qed.

(** C4: once a hostname policy has been loaded, every ExactBlacklist entry
    has a leftmost label to remove, and the entry without it is a member of
    wildcardExactBlacklist; checkWildcardHostList fails with the blacklisted
    error exactly when its argument is a member of that set, that is exactly
    when it is some exact entry without its leftmost label, and succeeds
    otherwise, so a base domain that is no direct parent of an exact entry
    passes. With the exact entry evil.example.com loaded,
    WillingToIssueWildcard rejects the identifier *.example.com, with the
    blacklisted error when example.com has a public suffix other than
    itself. *)
Theorem wildcardExactBlacklist_direct_parent bl pa' :
  loadedWith bl pa' ->
  (forall v, v ∈ ExactBlacklist bl ->
     (exists base, isDirectParent base v) /\
     (forall base, isDirectParent base v ->
        index (wildcardExactBlacklist pa') base = true)) /\
  (forall base,
     (checkWildcardHostList pa' base = Some errBlacklisted <->
        index (wildcardExactBlacklist pa') base = true) /\
     (index (wildcardExactBlacklist pa') base = true <->
        exists v, v ∈ ExactBlacklist bl /\ isDirectParent base v) /\
     (checkWildcardHostList pa' base = Some errBlacklisted \/
      checkWildcardHostList pa' base = None) /\
     ((forall v, v ∈ ExactBlacklist bl -> ~ isDirectParent base v) ->
        checkWildcardHostList pa' base = None)) /\
  ("evil.example.com" ∈ ExactBlacklist bl ->
     let ident := {| Type_ := IdentifierDNS; Value := "*.example.com" |} in
     WillingToIssueWildcard pa' ident <> None /\
     forall icannTLD,
       ExtractSuffix "example.com" = Some icannTLD ->
       icannTLD <> "example.com" ->
       WillingToIssueWildcard pa' ident = Some errBlacklisted).
Proof.
  intros (em & wm & Hmaps & Hbl & _ & Hwild)%loadedWith_maps.
  destruct (buildExactMaps_index _ _ _ _ _ Hmaps) as (Hlabels & _ & Hwm).
  assert (forall base, index (wildcardExactBlacklist pa') base = true <->
            exists v, v ∈ ExactBlacklist bl /\ isDirectParent base v) as Hmem.
  { intros base. rewrite Hwild, Hwm, index_empty. intuition discriminate. }
  split; [|split].
  - intros v Hin. split.
    + by apply not_singleLabel_parent, Hlabels.
    + intros base Hp. apply Hmem. by exists v.
  - intros base. rewrite (checkWildcardHostList_loaded _ _ _ Hbl).
    split; [|split; [apply Hmem|split]].
    + by destruct (index (wildcardExactBlacklist pa') base).
    + destruct (index (wildcardExactBlacklist pa') base); [by left|by right].
    + intros Hnone.
      destruct (index (wildcardExactBlacklist pa') base) eqn:Hi; [|done].
      apply Hmem in Hi as (v & Hin & Hp). by apply Hnone in Hp.
  - intros Hin ident.
    assert (index (wildcardExactBlacklist pa') "example.com" = true) as Hi.
    { apply Hmem. exists "evil.example.com". split; [done|]. by exists "evil". }
    assert (WillingToIssueWildcard pa' ident =
              match ExtractSuffix "example.com" with
              | None => Some errNonPublic
              | Some icannTLD =>
                  if String.eqb "example.com" icannTLD
                  then Some errICANNTLDWildcard else Some errBlacklisted
              end) as ->.
    { rewrite (WillingToIssueWildcard_base pa' ident "example.com")
        by reflexivity.
      rewrite (checkWildcardHostList_loaded _ _ _ Hbl), Hi. reflexivity. }
    split.
    + destruct (ExtractSuffix "example.com"); [|discriminate].
      by destruct (String.eqb _ _).
    + intros icannTLD -> Hne.
      destruct (String.eqb_spec "example.com" icannTLD); [congruence|done].
Qed.

(** ** The wildcard validator *)

(** C5: WillingToIssueWildcard rejects an identifier that is not a DNS
    identifier as an invalid identifier, a value with more than one asterisk
    for too many wildcards, a value with one asterisk that does not start
    with an asterisk and a dot as a malformed wildcard; a value with one
    asterisk that starts so is the two bytes and a base domain, and the
    result is: not a public name when the base domain has no public suffix,
    the wildcard of a top level domain when it is its own suffix, the error
    of checkWildcardHostList on the base domain when there is one, and
    otherwise what WillingToIssue returns on the DNS identifier made of x, a
    dot and the base domain; a value without an asterisk gets what
    WillingToIssue returns on the identifier itself. *)
Theorem WillingToIssueWildcard_cases pa ident :
  (Type_ ident <> IdentifierDNS ->
     WillingToIssueWildcard pa ident = Some errInvalidIdentifier) /\
  (Type_ ident = IdentifierDNS ->
     (1 < strings.Count (Value ident) "*"%char ->
        WillingToIssueWildcard pa ident = Some errTooManyWildcards) /\
     (strings.Count (Value ident) "*"%char = 1 ->
        strings.HasPrefix (Value ident) "*." = false ->
        WillingToIssueWildcard pa ident = Some errMalformedWildcard) /\
     (strings.Count (Value ident) "*"%char = 1 ->
        strings.HasPrefix (Value ident) "*." = true ->
        exists baseDomain,
          Value ident = "*." +:+ baseDomain /\
          strings.TrimPrefix (Value ident) "*." = baseDomain /\
          (ExtractSuffix baseDomain = None ->
             WillingToIssueWildcard pa ident = Some errNonPublic) /\
          (ExtractSuffix baseDomain = Some baseDomain ->
             WillingToIssueWildcard pa ident = Some errICANNTLDWildcard) /\
          (forall icannTLD,
             ExtractSuffix baseDomain = Some icannTLD ->
             icannTLD <> baseDomain ->
             (forall err, checkWildcardHostList pa baseDomain = Some err ->
                WillingToIssueWildcard pa ident = Some err) /\
             (checkWildcardHostList pa baseDomain = None ->
                WillingToIssueWildcard pa ident =
                  WillingToIssue pa {| Type_ := IdentifierDNS;
                                       Value := "x." +:+ baseDomain |}))) /\
     (strings.Count (Value ident) "*"%char = 0 ->
        WillingToIssueWildcard pa ident = WillingToIssue pa ident)).
Proof.
  split.
  - intros Ht. unfold WillingToIssueWildcard.
    destruct (String.eqb_spec (Type_ ident) IdentifierDNS); done.
  - intros Ht. split; [|split; [|split]].
    + intros Hc. unfold WillingToIssueWildcard.
      rewrite Ht, String.eqb_refl. cbn [negb].
      by destruct (Nat.ltb_spec 1 (strings.Count (Value ident) "*"%char)); [|lia].
    + intros Hc Hp. unfold WillingToIssueWildcard.
      rewrite Ht, String.eqb_refl, Hc, Hp. reflexivity.
    + intros Hc Hp. apply HasPrefix_inv in Hp.
      set (baseDomain := strings.dropBytes (String.length "*.") (Value ident))
        in Hp.
      exists baseDomain.
      assert (strings.Count baseDomain "*"%char = 0) as Hbase.
      { rewrite Hp, Count_app in Hc. simpl in Hc. lia. }
      split; [done|]. split; [by rewrite Hp, TrimPrefix_app|].
      rewrite (WillingToIssueWildcard_base pa ident baseDomain Ht Hp Hbase).
      split; [by intros ->|]. split.
      * intros ->. by rewrite String.eqb_refl.
      * intros icannTLD -> Hne.
        destruct (String.eqb_spec baseDomain icannTLD); [congruence|].
        split; [by intros err ->|by intros ->].
    + intros Hc. unfold WillingToIssueWildcard.
      rewrite Ht, String.eqb_refl, Hc. reflexivity.
Qed.

(** ** The identifier validator *)

Lemma firstFailure_app l1 l2 :
  firstFailure (l1 ++ l2)
  = match firstFailure l1 with Some err => Some err | None => firstFailure l2 end.
Proof.
  induction l1 as [|[err|] l1 IH]; simpl; [by destruct (firstFailure l2)|done|done].
Qed.

Lemma checkLabel_checks label :
  checkLabel label = firstFailure [labelSyntaxCheck label; labelIDNCheck label].
Proof.
  unfold checkLabel, labelSyntaxCheck, labelIDNCheck, punycodeRegexp, failWhen.
  simpl.
  repeat match goal with
         | |- context [if ?c then _ else _] => destruct c; simpl; try done
         end.
  all: destruct (ToUnicode label); simpl; try done.
  all: by destruct (negb _).
Qed.

Lemma checkLabels_checks labels :
  checkLabels labels
  = firstFailure
      (flat_map (fun label => [labelSyntaxCheck label; labelIDNCheck label])
                labels).
Proof.
  induction labels as [|label labels IH]; [done|].
  cbn [checkLabels flat_map]. rewrite firstFailure_app, <- checkLabel_checks, IH.
  done.
Qed.

(** The validator is the first failure of its checks, label by label. *)
Lemma WillingToIssue_checks pa id :
  WillingToIssue pa id = firstFailure (checksLabelByLabel pa id).
Proof.
  unfold checksLabelByLabel, checksBeforeLabels, checksAfterLabels.
  cbv zeta. rewrite firstFailure_app, (firstFailure_app (flat_map _ _)).
  rewrite <- checkLabels_checks. unfold WillingToIssue, failWhen. simpl.
  repeat match goal with
         | |- context [if ?c then _ else _] => destruct c; simpl; try done
         end.
  all: destruct (checkLabels _); try done.
  all: destruct (ExtractSuffix _); try done.
  all: destruct (String.eqb _ _); try done.
  all: by destruct (checkHostLists _ _).
Qed.

Lemma checkLabels_app l1 l2 :
  checkLabels (l1 ++ l2)
  = match checkLabels l1 with Some err => Some err | None => checkLabels l2 end.
Proof.
  induction l1 as [|l l1 IH]; simpl; [by destruct (checkLabels l2)|].
  by destruct (checkLabel l).
Qed.

Lemma forallb_isDNSCharacter_false s c :
  In c (list_ascii_of_string s) -> isDNSCharacter c = false ->
  forallb isDNSCharacter (list_ascii_of_string s) = false.
Proof.
  intros Hin Hc. destruct (forallb _ _) eqn:Hall; [|done].
  rewrite forallb_forall in Hall. rewrite (Hall c Hin) in Hc. discriminate.
Qed.

Lemma checkLabel_documented label err :
  checkLabel label = Some err -> err ∈ documentedErrors.
Proof.
  unfold checkLabel.
  repeat match goal with
         | |- context [if ?c then _ else _] => destruct c
         end;
  try destruct (ToUnicode label); try destruct (negb _);
  intros [= <-]; unfold documentedErrors; set_solver.
Qed.

Lemma checkLabels_documented labels err :
  checkLabels labels = Some err -> err ∈ documentedErrors.
Proof.
  induction labels as [|l labels IH]; simpl; [discriminate|].
  destruct (checkLabel l) eqn:Hl; [|done].
  intros [= <-]. by apply checkLabel_documented in Hl.
Qed.

Lemma WillingToIssue_documented pa nameMap id err :
  blacklist pa = Some nameMap ->
  WillingToIssue pa id = Some err -> err ∈ documentedErrors.
Proof.
  intros Hbl. unfold WillingToIssue.
  repeat match goal with
         | |- context [if ?c then _ else _] =>
             destruct c; [intros [= <-]; unfold documentedErrors; set_solver|]
         end.
  cbv zeta.
  repeat match goal with
         | |- context [if ?c then _ else _] =>
             destruct c; [intros [= <-]; unfold documentedErrors; set_solver|]
         end.
  destruct (checkLabels _) eqn:Hl;
    [intros [= <-]; by apply checkLabels_documented in Hl|].
  destruct (ExtractSuffix _);
    [|intros [= <-]; unfold documentedErrors; set_solver].
  destruct (String.eqb _ _);
    [intros [= <-]; unfold documentedErrors; set_solver|].
  destruct (checkHostLists_loaded pa _ (Value id) Hbl) as [[-> _]|[-> _]];
    [|discriminate].
  intros [= <-]; unfold documentedErrors; set_solver.
Qed.

Lemma documentedErrors_classified err :
  err ∈ documentedErrors ->
  errorType err = Some Malformed \/ errorType err = Some RejectedIdentifier.
Proof.
  unfold documentedErrors. intros Hin.
  repeat (apply elem_of_cons in Hin as [->|Hin]; [cbn; by auto|]).
  by apply elem_of_nil in Hin.
Qed.

(** On an authority with a hostname policy, every error of the two
    validators is a malformed request error or a rejected identifier
    error. *)
Lemma WillingToIssue_loaded_classified pa nameMap id err :
  blacklist pa = Some nameMap ->
  WillingToIssue pa id = Some err ->
  errorType err = Some Malformed \/ errorType err = Some RejectedIdentifier.
Proof.
  intros Hbl Herr. eapply documentedErrors_classified, WillingToIssue_documented;
    eauto.
Qed.

Lemma WillingToIssueWildcard_loaded_classified pa nameMap id err :
  blacklist pa = Some nameMap ->
  WillingToIssueWildcard pa id = Some err ->
  errorType err = Some Malformed \/ errorType err = Some RejectedIdentifier.
Proof.
  intros Hbl. unfold WillingToIssueWildcard.
  destruct (negb _); [intros [= <-]; by left|]. cbv zeta.
  destruct (1 <? _); [intros [= <-]; by left|].
  destruct (_ =? 1); [|by apply WillingToIssue_loaded_classified with nameMap].
  destruct (negb _); [intros [= <-]; by left|].
  destruct (ExtractSuffix _); [|intros [= <-]; by left].
  destruct (String.eqb _ _); [intros [= <-]; by left|].
  rewrite (checkWildcardHostList_loaded _ _ _ Hbl).
  destruct (index _ _); [intros [= <-]; by right|].
  by apply WillingToIssue_loaded_classified with nameMap.
Qed.

(** The validator up to the check of the length, for a DNS identifier whose
    value neither is empty nor starts with an asterisk and a dot. *)
Lemma WillingToIssue_from_characters pa id :
  Type_ id = IdentifierDNS ->
  Value id <> EmptyString ->
  strings.HasPrefix (Value id) "*." = false ->
  WillingToIssue pa id =
    firstFailure (drop 3 (checksLabelByLabel pa id)).
Proof.
  intros Ht Hne Hp. rewrite WillingToIssue_checks.
  unfold checksLabelByLabel, checksBeforeLabels. cbv zeta.
  rewrite Ht, Hp. destruct (String.eqb_spec (Value id) EmptyString); done.
Qed.

(** C6 (as amended): WillingToIssue returns the first failure of its checks
    taken in this order: the identifier type, the empty name, the wildcard
    prefix, the character set, the bound of 230 octets, the IP literal, the
    trailing dot, more than 10 labels, fewer than 2 labels, then label by
    label from the left the length, the syntax, the hyphen at the end and
    the punycode or reserved form of that label, then the public suffix,
    then the hostname policy. So a DNS identifier without the wildcard
    prefix is rejected for an invalid character when it holds an underscore,
    for its length when its characters pass and it exceeds 230 octets, as an
    IP address when it parses as one and the checks before pass, for its
    trailing dot when it ends in one and the checks before pass, and for an
    invalid character when a label ends in a hyphen, has 1 to 63 octets and
    everything before it passes; 192.0.2.1 is rejected as an IP address
    when it parses as one; and on a loaded authority every error is one of
    the documented ones. *)
Theorem WillingToIssue_checks_label_by_label pa id :
  WillingToIssue pa id = firstFailure (checksLabelByLabel pa id) /\
  (Type_ id = IdentifierDNS ->
   strings.HasPrefix (Value id) "*." = false ->
   (In "_"%char (list_ascii_of_string (Value id)) ->
      WillingToIssue pa id = Some errInvalidDNSCharacter) /\
   (forallb isDNSCharacter (list_ascii_of_string (Value id)) = true ->
    (maxDNSIdentifierLength < String.length (Value id) ->
       WillingToIssue pa id = Some errNameTooLong) /\
    (Value id <> EmptyString ->
     String.length (Value id) <= maxDNSIdentifierLength ->
     (ParseIP (Value id) = true -> WillingToIssue pa id = Some errIPAddress) /\
     (ParseIP (Value id) = false ->
      (strings.HasSuffix (Value id) "." = true ->
         WillingToIssue pa id = Some errNameEndsInDot) /\
      (strings.HasSuffix (Value id) "." = false ->
       forall before label after,
         strings.Split (Value id) "."%char = before ++ label :: after ->
         2 <= length (before ++ label :: after) <= maxLabels ->
         checkLabels before = None ->
         1 <= String.length label <= maxLabelLength ->
         lastByte label = Some "-"%char ->
         WillingToIssue pa id = Some errInvalidDNSCharacter))))) /\
  (ParseIP "192.0.2.1" = true ->
     WillingToIssue pa {| Type_ := IdentifierDNS; Value := "192.0.2.1" |}
     = Some errIPAddress) /\
  (forall nameMap err,
     blacklist pa = Some nameMap ->
     WillingToIssue pa id = Some err -> err ∈ documentedErrors).
Proof.
  split; [apply WillingToIssue_checks|]. split; [|split].
  - intros Ht Hp. split.
    + intros Hin.
      assert (Value id <> EmptyString) as Hne.
      { intros Heq. rewrite Heq in Hin. destruct Hin. }
      rewrite WillingToIssue_from_characters by done.
      unfold checksLabelByLabel, checksBeforeLabels. cbv zeta. cbn [app drop].
      by rewrite (forallb_isDNSCharacter_false _ _ Hin).
    + intros Hchars. split.
      * intros Hlen.
        assert (Value id <> EmptyString) as Hne.
        { intros Heq. rewrite Heq in Hlen. unfold maxDNSIdentifierLength in Hlen.
          simpl in Hlen. lia. }
        rewrite WillingToIssue_from_characters by done.
        unfold checksLabelByLabel, checksBeforeLabels. cbv zeta.
        cbn [app drop]. rewrite Hchars.
        by destruct (Nat.ltb_spec maxDNSIdentifierLength
                       (String.length (Value id))); [|lia].
      * intros Hne Hlen.
        rewrite WillingToIssue_from_characters by done.
        unfold checksLabelByLabel, checksBeforeLabels. cbv zeta.
        cbn [app drop]. rewrite Hchars.
        destruct (Nat.ltb_spec maxDNSIdentifierLength
                    (String.length (Value id))); [lia|].
        split; [by intros ->|]. intros ->. split; [by intros ->|].
        intros -> before label after Hsplit Hcount Hbefore Hlabel Hlast.
        rewrite Hsplit.
        destruct (Nat.ltb_spec maxLabels (length (before ++ label :: after)));
          [lia|].
        destruct (Nat.ltb_spec (length (before ++ label :: after)) 2); [lia|].
        cbn [failWhen negb firstFailure].
        rewrite firstFailure_app, <- checkLabels_checks, checkLabels_app, Hbefore.
        cbn [checkLabels]. unfold checkLabel.
        destruct (Nat.ltb_spec (String.length label) 1); [lia|].
        destruct (Nat.ltb_spec maxLabelLength (String.length label)); [lia|].
        destruct (negb (dnsLabelRegexp label)); [done|].
        by rewrite bool_decide_eq_true_2.
  - intros Hip. unfold WillingToIssue. cbn [Type_ Value]. by rewrite Hip.
  - intros nameMap err. apply WillingToIssue_documented.
Qed.

(** ** The challenge selector *)

Lemma fmap_lookup_seq {A} (d : A) (l : list A) :
  (fun i => default d (l !! i)) <$> seq 0 (length l) = l.
Proof.
  apply list_eq. intros i. rewrite list_lookup_fmap.
  destruct (decide (i < length l)) as [Hlt|Hge].
  - rewrite lookup_seq_lt by done. simpl.
    destruct (lookup_lt_is_Some_2 l i Hlt) as [x Hx]. by rewrite Hx.
  - rewrite lookup_seq_ge by lia. simpl. symmetry. apply lookup_ge_None. lia.
Qed.

Lemma shuffleLoop_spec challenges perm i shuffled combinations :
  (forall j, j ∈ perm -> j < length challenges) ->
  i + length perm <= length shuffled ->
  length combinations = length shuffled ->
  shuffleLoop challenges i perm shuffled combinations
  = Some (take i shuffled
            ++ ((fun j => default zeroChallenge (challenges !! j)) <$> perm)
            ++ drop (i + length perm) shuffled,
          take i combinations
            ++ ((fun j => [j]) <$> seq i (length perm))
            ++ drop (i + length perm) combinations).
Proof.
  revert i shuffled combinations.
  induction perm as [|j perm IH]; intros i sh co Hperm Hlen Hco.
  - simpl. by rewrite Nat.add_0_r, !take_drop.
  - cbn [shuffleLoop].
    destruct (lookup_lt_is_Some_2 challenges j) as [c Hc].
    { apply Hperm. by apply elem_of_cons; left. }
    rewrite Hc. simpl in Hlen.
    destruct (Nat.ltb_spec i (length sh)); [|lia].
    destruct (Nat.ltb_spec i (length co)); [|lia].
    cbn [andb]. rewrite IH.
    + rewrite (take_S_r _ _ c) by (by apply list_lookup_insert_eq).
      rewrite (take_S_r _ _ [i]) by (by apply list_lookup_insert_eq).
      rewrite !take_insert_ge, !drop_insert_lt by lia.
      cbn [length seq fmap list_fmap]. rewrite Hc. cbn [default].
      replace (S i + length perm) with (i + S (length perm)) by lia.
      by rewrite <- !app_assoc.
    + intros k Hk. apply Hperm. by apply elem_of_cons; right.
    + rewrite length_insert. lia.
    + by rewrite !length_insert.
Qed.

Lemma comboLoop_spec combinations perm i shuffledCombos :
  (forall j, j ∈ perm -> j < length combinations) ->
  i + length perm <= length shuffledCombos ->
  comboLoop combinations i perm shuffledCombos
  = Some (take i shuffledCombos
            ++ ((fun j => default [] (combinations !! j)) <$> perm)
            ++ drop (i + length perm) shuffledCombos).
Proof.
  revert i shuffledCombos.
  induction perm as [|j perm IH]; intros i sh Hperm Hlen.
  - simpl. by rewrite Nat.add_0_r, take_drop.
  - cbn [comboLoop].
    destruct (lookup_lt_is_Some_2 combinations j) as [c Hc].
    { apply Hperm. by apply elem_of_cons; left. }
    rewrite Hc. simpl in Hlen.
    destruct (Nat.ltb_spec i (length sh)); [|lia].
    rewrite IH.
    + rewrite (take_S_r _ _ c) by (by apply list_lookup_insert_eq).
      rewrite take_insert_ge, drop_insert_lt by lia.
      cbn [length fmap list_fmap]. rewrite Hc. cbn [default].
      replace (S i + length perm) with (i + S (length perm)) by lia.
      by rewrite <- !app_assoc.
    + intros k Hk. apply Hperm. by apply elem_of_cons; right.
    + rewrite length_insert. lia.
Qed.

Lemma PermContract_bound rng n j :
  PermContract -> j ∈ (Perm rng n).1 -> j < n.
Proof.
  intros HP Hj. rewrite (HP rng n) in Hj. apply elem_of_seq in Hj. lia.
Qed.

Lemma PermContract_length rng n : PermContract -> length (Perm rng n).1 = n.
Proof. intros HP. by rewrite (HP rng n), length_seq. Qed.

(** The shuffle, under the contract of the generator: the challenges and
    the singleton combinations, each rearranged by its own draw. *)
Lemma shuffleChallenges_spec rng challenges :
  PermContract ->
  let n := length challenges in
  let draw1 := Perm rng n in
  let draw2 := Perm draw1.2 n in
  shuffleChallenges rng challenges
  = Some ((fun j => default zeroChallenge (challenges !! j)) <$> draw1.1,
          (fun j => [j]) <$> draw2.1,
          draw2.2).
Proof.
  intros HP n draw1 draw2. subst draw1 draw2. unfold shuffleChallenges. fold n.
  pose proof (PermContract_length rng n HP) as Hlen1.
  pose proof (fun j => PermContract_bound rng n j HP) as Hb1.
  destruct (Perm rng n) as [perm1 rng1]. cbn [fst snd] in *.
  rewrite shuffleLoop_spec; rewrite ?length_replicate; try lia; [|done].
  rewrite Hlen1, !take_0, !app_nil_l.
  rewrite !drop_ge by (rewrite length_replicate; lia).
  rewrite !app_nil_r. rewrite length_fmap, length_seq.
  pose proof (PermContract_length rng1 n HP) as Hlen2.
  pose proof (fun j => PermContract_bound rng1 n j HP) as Hb2.
  destruct (Perm rng1 n) as [perm2 rng2]. cbn [fst snd] in *.
  rewrite comboLoop_spec; rewrite ?length_replicate, ?length_fmap, ?length_seq;
    try lia; [|done].
  rewrite Hlen2, take_0, app_nil_l.
  rewrite drop_ge by (rewrite length_replicate; lia). rewrite app_nil_r.
  do 3 f_equal. apply list_fmap_ext. intros k j Hj.
  rewrite list_lookup_fmap, lookup_seq_lt; [done|].
  apply Hb2. by eapply list_elem_of_lookup_2.
Qed.

Lemma appendIf_types cond mk T token (st : list Challenge * Entropy) :
  (forall tok e, chType (mk tok e).1 = T) ->
  chType <$> (appendIf cond mk token st).1
  = (chType <$> st.1) ++ (if cond then [T] else []).
Proof.
  intros HT. unfold appendIf. destruct cond; [|by rewrite app_nil_r].
  specialize (HT token st.2). destruct (mk token st.2) as [c e].
  cbn [fst] in *. rewrite fmap_app. cbn. by rewrite HT.
Qed.

(** The selection offers the types of [offered], whatever the tokens. *)
Lemma selectChallenges_offered pa id regID reval ent :
  ChallengeTypeContract ->
  match offered pa id regID reval with
  | inl err => exists ent', selectChallenges pa id regID reval ent = (inl err, ent')
  | inr tys =>
      exists chs ent',
        selectChallenges pa id regID reval ent = (inr chs, ent') /\
        chType <$> chs = tys
  end.
Proof.
  intros HC. unfold offered, selectChallenges.
  destruct (if featureEnabled NewAuthorizationSchema then NewToken ent
            else (EmptyString, ent)) as [token ent0].
  destruct (strings.HasPrefix (Value id) "*.").
  - destruct (ChallengeTypeEnabled pa ChallengeTypeDNS01 regID); cbn [negb].
    + destruct (HC token ent0) as (_ & _ & _ & Hdns).
      destruct (DNSChallenge01 token ent0) as [c e]. exists [c], e.
      split; [done|]. cbn in *. by rewrite Hdns.
    + by exists ent0.
  - eexists _, _. split; [reflexivity|].
    rewrite (appendIf_types _ DNSChallenge01 ChallengeTypeDNS01)
      by (intros tok e; apply (HC tok e)).
    rewrite (appendIf_types _ TLSALPNChallenge01 ChallengeTypeTLSALPN01)
      by (intros tok e; apply (HC tok e)).
    rewrite (appendIf_types _ TLSSNIChallenge01 ChallengeTypeTLSSNI01)
      by (intros tok e; apply (HC tok e)).
    rewrite (appendIf_types _ HTTPChallenge01 ChallengeTypeHTTP01)
      by (intros tok e; apply (HC tok e)).
    unfold offeredTypes. cbn [fst fmap list_fmap]. by rewrite <- !app_assoc.
Qed.

Lemma ChallengesFor_error pa id regID reval ent err ent' :
  selectChallenges pa id regID reval ent = (inl err, ent') ->
  ChallengesFor pa id regID reval ent
  = Some (pa, ent', {| resChallenges := []; resCombinations := [];
                       resErr := Some err |}).
Proof. intros Hs. unfold ChallengesFor. by rewrite Hs. Qed.

Lemma ChallengesFor_selected pa id regID reval ent chs ent' :
  PermContract ->
  selectChallenges pa id regID reval ent = (inr chs, ent') ->
  let n := length chs in
  let draw1 := Perm (pseudoRNG pa) n in
  let draw2 := Perm draw1.2 n in
  ChallengesFor pa id regID reval ent
  = Some (withRNG pa draw2.2, ent',
          {| resChallenges :=
               (fun j => default zeroChallenge (chs !! j)) <$> draw1.1;
             resCombinations := (fun j => [j]) <$> draw2.1;
             resErr := None |}).
Proof.
  intros HP Hs n draw1 draw2. unfold ChallengesFor.
  by rewrite Hs, shuffleChallenges_spec.
Qed.

Lemma chType_lookup (chs : list Challenge) (perm : list nat) :
  chType <$> ((fun j => default zeroChallenge (chs !! j)) <$> perm)
  = (fun j => default EmptyString ((chType <$> chs) !! j)) <$> perm.
Proof.
  rewrite <- list_fmap_compose. apply list_fmap_ext. intros _ j _. cbn.
  rewrite list_lookup_fmap. by destruct (chs !! j).
Qed.

(** The next authority and the order of the result are functions of the
    authority, the identifier, the account and the revalidation flag. *)
Lemma ChallengesFor_order pa id regID reval ent :
  PermContract -> ChallengeTypeContract ->
  exists pa' ent' res,
    ChallengesFor pa id regID reval ent = Some (pa', ent', res) /\
    match offered pa id regID reval with
    | inl err => pa' = pa /\ orderOf res = ([], [], Some err)
    | inr tys =>
        let n := length tys in
        let draw1 := Perm (pseudoRNG pa) n in
        let draw2 := Perm draw1.2 n in
        pa' = withRNG pa draw2.2 /\
        orderOf res = ((fun j => default EmptyString (tys !! j)) <$> draw1.1,
                       (fun j => [j]) <$> draw2.1, None)
    end.
Proof.
  intros HP HC. pose proof (selectChallenges_offered pa id regID reval ent HC) as Hs.
  destruct (offered pa id regID reval) as [err|tys].
  - destruct Hs as (ent' & Hs). rewrite (ChallengesFor_error _ _ _ _ _ _ _ Hs).
    by eexists _, _, _.
  - destruct Hs as (chs & ent' & Hs & <-).
    rewrite (ChallengesFor_selected _ _ _ _ _ _ _ HP Hs).
    eexists _, _, _. split; [reflexivity|]. rewrite length_fmap.
    split; [done|]. unfold orderOf. cbn [resChallenges resCombinations resErr].
    by rewrite chType_lookup.
Qed.

Lemma ChallengeTypeEnabled_iff pa t regID :
  ChallengeTypeEnabled pa t regID = true <->
  index (enabledChallenges pa) t = true \/
  exists wl accounts,
    enabledChallengesWhitelist pa = Some wl /\ wl !! t = Some accounts /\
    index (Some accounts) regID = true.
Proof.
  unfold ChallengeTypeEnabled. rewrite orb_true_iff. split.
  - intros [?|Hw]; [by left|right].
    destruct (enabledChallengesWhitelist pa) as [wl|]; [|done].
    destruct (wl !! t) as [accounts|] eqn:Ht; [|done]. by exists wl, accounts.
  - intros [?|(wl & accounts & -> & -> & ?)]; [by left|by right].
Qed.

(** C8: a challenge type is enabled for an account when it is globally
    enabled or the account is on the whitelist of the type. For an
    identifier whose value starts with an asterisk and a dot, ChallengesFor
    returns exactly one challenge, of type DNS-01, with the one combination
    of index 0, when DNS-01 is enabled for the account, and otherwise the
    error with no challenges and no combinations, the authority unchanged.
    ChallengesFor always returns, and it returns an error only in that
    case. *)
Theorem ChallengesFor_wildcard pa identifier regID revalidation ent :
  PermContract -> ChallengeTypeContract ->
  (forall t,
     ChallengeTypeEnabled pa t regID = true <->
     index (enabledChallenges pa) t = true \/
     exists wl accounts,
       enabledChallengesWhitelist pa = Some wl /\ wl !! t = Some accounts /\
       index (Some accounts) regID = true) /\
  (strings.HasPrefix (Value identifier) "*." = true ->
     (ChallengeTypeEnabled pa ChallengeTypeDNS01 regID = true ->
        exists pa' ent' c,
          ChallengesFor pa identifier regID revalidation ent
          = Some (pa', ent', {| resChallenges := [c];
                                resCombinations := [[0]];
                                resErr := None |}) /\
          chType c = ChallengeTypeDNS01) /\
     (ChallengeTypeEnabled pa ChallengeTypeDNS01 regID = false ->
        exists ent',
          ChallengesFor pa identifier regID revalidation ent
          = Some (pa, ent', {| resChallenges := [];
                               resCombinations := [];
                               resErr := Some errWildcardNoDNS01 |}))) /\
  (exists pa' ent' res,
     ChallengesFor pa identifier regID revalidation ent = Some (pa', ent', res) /\
     (resErr res <> None <->
        strings.HasPrefix (Value identifier) "*." = true /\
        ChallengeTypeEnabled pa ChallengeTypeDNS01 regID = false)).
Proof.
  intros HP HC. split; [intros t; apply ChallengeTypeEnabled_iff|].
  pose proof (selectChallenges_offered pa identifier regID revalidation ent HC)
    as Hs.
  unfold offered in Hs. split.
  - intros Hp. rewrite Hp in Hs. split.
    + intros Hen. rewrite Hen in Hs. destruct Hs as (chs & ent' & Hs & Hty).
      destruct chs as [|c [|c' chs]]; try discriminate.
      injection Hty as Hty.
      rewrite (ChallengesFor_selected _ _ _ _ _ _ _ HP Hs). cbn [length].
      pose proof (HP (pseudoRNG pa) 1) as H1.
      apply Permutation_singleton_r in H1. rewrite H1.
      pose proof (HP (Perm (pseudoRNG pa) 1).2 1) as H2.
      apply Permutation_singleton_r in H2. rewrite H2.
      by eexists _, _, c.
    + intros Hen. rewrite Hen in Hs. destruct Hs as (ent' & Hs).
      exists ent'. by apply ChallengesFor_error.
  - destruct (strings.HasPrefix (Value identifier) "*.").
    + destruct (ChallengeTypeEnabled pa ChallengeTypeDNS01 regID).
      * destruct Hs as (chs & ent' & Hs & _).
        rewrite (ChallengesFor_selected _ _ _ _ _ _ _ HP Hs).
        eexists _, _, _. split; [reflexivity|]. cbn. by intuition.
      * destruct Hs as (ent' & Hs). rewrite (ChallengesFor_error _ _ _ _ _ _ _ Hs).
        eexists _, _, _. split; [reflexivity|]. cbn. by intuition.
    + destruct Hs as (chs & ent' & Hs & _).
      rewrite (ChallengesFor_selected _ _ _ _ _ _ _ HP Hs).
      eexists _, _, _. split; [reflexivity|]. cbn. by intuition.
Qed.

(** C9: for an identifier that is no wildcard and an account for which the
    four challenge types are enabled, ChallengesFor returns 4 challenges
    and 4 combinations, each a singleton. The order is deterministic: two
    runs of a new authority (the generator seeded alike) over the same
    requests return the same order of challenge types and the same
    combinations, whatever tokens are drawn; and one call on two
    authorities with the same generator state and the same offered types
    returns the same order and leaves the same generator state. *)
Theorem ChallengesFor_all_enabled_deterministic :
  PermContract -> ChallengeTypeContract ->
  (forall pa identifier regID revalidation ent,
     strings.HasPrefix (Value identifier) "*." = false ->
     ChallengeTypeEnabled pa ChallengeTypeHTTP01 regID = true ->
     ChallengeTypeEnabled pa ChallengeTypeTLSSNI01 regID = true ->
     ChallengeTypeEnabled pa ChallengeTypeTLSALPN01 regID = true ->
     ChallengeTypeEnabled pa ChallengeTypeDNS01 regID = true ->
     exists pa' ent' res,
       ChallengesFor pa identifier regID revalidation ent
       = Some (pa', ent', res) /\
       resErr res = None /\
       length (resChallenges res) = 4 /\
       length (resCombinations res) = 4 /\
       Forall isSingleton (resCombinations res)) /\
  (forall challengeTypes requests ent1 ent2,
     option_map orderOf <$> serve (New challengeTypes) ent1 requests
     = option_map orderOf <$> serve (New challengeTypes) ent2 requests) /\
  (forall pa1 pa2 identifier regID revalidation ent1 ent2,
     pseudoRNG pa1 = pseudoRNG pa2 ->
     offered pa1 identifier regID revalidation
     = offered pa2 identifier regID revalidation ->
     exists pa1' ent1' res1 pa2' ent2' res2,
       ChallengesFor pa1 identifier regID revalidation ent1
       = Some (pa1', ent1', res1) /\
       ChallengesFor pa2 identifier regID revalidation ent2
       = Some (pa2', ent2', res2) /\
       orderOf res1 = orderOf res2 /\
       pseudoRNG pa1' = pseudoRNG pa2').
Proof.
  intros HP HC. split; [|split].
  - intros pa id regID reval ent Hp H1 H2 H3 H4.
    pose proof (selectChallenges_offered pa id regID reval ent HC) as Hs.
    unfold offered, offeredTypes in Hs. rewrite Hp, H1, H2, H3, H4 in Hs.
    cbn [orb app] in Hs. destruct Hs as (chs & ent' & Hs & Hty).
    apply (f_equal length) in Hty. rewrite length_fmap in Hty. cbn in Hty.
    rewrite (ChallengesFor_selected _ _ _ _ _ _ _ HP Hs).
    eexists _, _, _. split; [reflexivity|].
    cbn [resErr resChallenges resCombinations].
    rewrite !length_fmap, !PermContract_length by done.
    repeat split; try done.
    apply Forall_fmap, Forall_forall. intros j _. by exists j.
  - intros cts requests. generalize (New cts). clear cts.
    induction requests as [|[[id regID] reval] requests IH]; intros pa ent1 ent2;
      [done|].
    cbn [serve].
    destruct (ChallengesFor_order pa id regID reval ent1 HP HC)
      as (pa1 & e1 & r1 & -> & Ho1).
    destruct (ChallengesFor_order pa id regID reval ent2 HP HC)
      as (pa2 & e2 & r2 & -> & Ho2).
    assert (pa1 = pa2 /\ orderOf r1 = orderOf r2) as [<- Hord].
    { destruct (offered pa id regID reval) as [err|tys].
      - destruct Ho1 as [-> ->], Ho2 as [-> ->]. done.
      - cbv zeta in Ho1, Ho2. destruct Ho1 as [-> ->], Ho2 as [-> ->]. done. }
    rewrite !fmap_cons. cbn [option_map]. rewrite Hord. f_equal. apply IH.
  - intros pa1 pa2 id regID reval ent1 ent2 Hrng Hoff.
    destruct (ChallengesFor_order pa1 id regID reval ent1 HP HC)
      as (pa1' & e1 & r1 & -> & Ho1).
    destruct (ChallengesFor_order pa2 id regID reval ent2 HP HC)
      as (pa2' & e2 & r2 & -> & Ho2).
    exists pa1', e1, r1, pa2', e2, r2. split; [done|]. split; [done|].
    rewrite <- Hoff in Ho2.
    destruct (offered pa1 id regID reval) as [err|tys].
    + destruct Ho1 as [-> ->], Ho2 as [-> ->]. done.
    + cbv zeta in Ho1, Ho2. destruct Ho1 as [-> ->], Ho2 as [-> ->].
      rewrite Hrng. done.
Qed.

(** C10: ChallengesFor always returns; when it returns without an error,
    the challenges it returns are a permutation of the challenges it
    selected, there are as many combinations as challenges, every
    combination is a singleton, and the indices of the combinations are the
    integers below that number, each once. *)
Theorem ChallengesFor_permutation pa identifier regID revalidation ent :
  PermContract ->
  exists pa' ent' res,
    ChallengesFor pa identifier regID revalidation ent = Some (pa', ent', res) /\
    (resErr res = None ->
     exists selected,
       selectChallenges pa identifier regID revalidation ent
       = (inr selected, ent') /\
       resChallenges res ≡ₚ selected /\
       length (resChallenges res) = length selected /\
       length (resCombinations res) = length selected /\
       Forall isSingleton (resCombinations res) /\
       concat (resCombinations res) ≡ₚ seq 0 (length selected)).
Proof.
  intros HP.
  destruct (selectChallenges pa identifier regID revalidation ent)
    as [[err|chs] ent'] eqn:Hs.
  - rewrite (ChallengesFor_error _ _ _ _ _ _ _ Hs).
    eexists _, _, _. split; [reflexivity|]. discriminate.
  - rewrite (ChallengesFor_selected _ _ _ _ _ _ _ HP Hs).
    eexists _, _, _. split; [reflexivity|]. intros _. exists chs.
    cbn [resChallenges resCombinations].
    rewrite !length_fmap, !PermContract_length by done.
    repeat split; try done.
    + rewrite (HP (pseudoRNG pa) (length chs)). by rewrite fmap_lookup_seq.
    + apply Forall_fmap, Forall_forall. intros j _. by exists j.
    + assert (forall l : list nat, concat ((fun j => [j]) <$> l) = l) as ->.
      { intros l. induction l as [|j l IH]; [done|]. cbn. by rewrite IH. }
      apply HP.
Qed.

(** C7 (the defect): on an authority that has seen no successful load,
    WillingToIssue returns, for an otherwise valid identifier, the not yet
    loaded error, which is neither a malformed request error nor a rejected
    identifier error. *)
Theorem notLoaded_error_has_no_class pa id :
  neverLoaded pa -> otherwiseValid id ->
  WillingToIssue pa id = Some errNotLoaded /\
  errorType errNotLoaded = None /\
  errorType errNotLoaded <> Some Malformed /\
  errorType errNotLoaded <> Some RejectedIdentifier.
Proof.
  intros Hbl%neverLoaded_blacklist Hid.
  rewrite (WillingToIssue_otherwiseValid pa id Hid).
  unfold checkHostLists. rewrite Hbl. done.
Qed.

End Properties.

(** ** Concrete runs *)

(** The name ab--c..com passes the checks before the labels in every
    environment in which it is no IP address; its second label is empty,
    and its first label has the reserved form. The validator reports the
    reserved form of the first label, the checks in the listed order report
    the length of the second. *)
Lemma WillingToIssue_reserved_before_short `{E : External} pa :
  ParseIP "ab--c..com" = false ->
  firstFailure (checksBeforeLabels (dns "ab--c..com")) = None /\
  strings.Split "ab--c..com" "."%char = ["ab--c"; EmptyString; "com"] /\
  labelSyntaxCheck EmptyString = Some errLabelTooShort /\
  firstFailure (checksInListedOrder pa (dns "ab--c..com"))
  = Some errLabelTooShort /\
  WillingToIssue pa (dns "ab--c..com") = Some errInvalidRLDH.
Proof.
  intros Hip. repeat split.
  - unfold checksBeforeLabels. cbn [Value Type_ dns]. rewrite Hip.
    vm_compute. reflexivity.
  - unfold checksInListedOrder. rewrite firstFailure_app.
    unfold checksBeforeLabels. cbn [Value Type_ dns]. rewrite Hip.
    vm_compute. reflexivity.
  - unfold WillingToIssue. cbn [Value Type_ dns]. rewrite Hip.
    vm_compute. reflexivity.
Qed.

(** C6 (counterexample): on the loaded example authority the validator does
    not return the first failure of the checks in the listed order: for
    ab--c..com every check before the labels passes, the length check fails
    on the empty second label, and the validator returns the reserved label
    error of the first label. *)
Lemma WillingToIssue_not_in_listed_order :
  firstFailure (checksBeforeLabels (E := env) (dns "ab--c..com")) = None /\
  firstFailure (checksInListedOrder (E := env) loaded (dns "ab--c..com"))
  = Some errLabelTooShort /\
  WillingToIssue (E := env) loaded (dns "ab--c..com") = Some errInvalidRLDH /\
  WillingToIssue (E := env) loaded (dns "ab--c..com")
  <> firstFailure (checksInListedOrder (E := env) loaded (dns "ab--c..com")).
Proof.
  destruct (WillingToIssue_reserved_before_short (E := env) loaded)
    as (H1 & _ & _ & H2 & H3); [reflexivity|].
  split; [exact H1|]. split; [exact H2|]. split; [exact H3|].
  rewrite H2, H3. discriminate.
Qed.

Lemma Example_PermContract : PermContract (E := env).
Proof.
  intros rng n. cbn. unfold rotate.
  rewrite Permutation_app_comm. by rewrite take_drop.
Qed.

Lemma Example_ChallengeTypeContract : ChallengeTypeContract (E := env).
Proof.
  intros token ent. cbn. unfold newChallenge.
  by destruct (String.eqb token EmptyString).
Qed.

(** The parsed form of [policyDoc]. *)
Lemma Example_policyDoc :
  jsonUnmarshalBlacklist (External := env) policyDoc = inr examplePolicy.
Proof. reflexivity. Qed.

Lemma Example_loaded :
  loadHostnamePolicy (E := env) (New allEnabled) policyDoc = (loaded, None).
Proof. vm_compute. reflexivity. Qed.

Lemma Example_loadedWith : loadedWith (E := env) examplePolicy loaded.
Proof.
  exact (loadedWith_load (E := env) examplePolicy _ _ _
           Example_policyDoc Example_loaded).
Qed.

(** The names of the specification on the loaded example authority. *)
Example Example_names :
  map (WillingToIssue (E := env) loaded)
      [dns "example.com"; dns "foo.example.com"; dns "a.b.example.com";
       dns "myexample.com"; dns "evil.example.org"; dns "x.evil.example.org";
       dns "192.0.2.1"; dns "a_b.com"; dns "foo.com."; dns "foo-.com"]
  = [Some errBlacklisted; Some errBlacklisted; Some errBlacklisted;
     None; Some errBlacklisted; None;
     Some errIPAddress; Some errInvalidDNSCharacter; Some errNameEndsInDot;
     Some errInvalidDNSCharacter].
Proof. vm_compute. reflexivity. Qed.

Example Example_wildcards :
  map (WillingToIssueWildcard (E := env) loaded)
      [dns "*.example.org"; dns "*.b.example.org"; dns "*.org";
       dns "*.*.com"; dns "a*.com"; dns "foo.org"]
  = [Some errBlacklisted; None; Some errICANNTLDWildcard;
     Some errTooManyWildcards; Some errMalformedWildcard; None].
Proof. vm_compute. reflexivity. Qed.

(** A failed reload leaves the loaded example authority as it was. *)
Example Example_failed_reload :
  loadHostnamePolicy (E := env) loaded (list_byte_of_string ";com")
  = (loaded, Some errNoEntries) /\
  loadHostnamePolicy (E := env) loaded (list_byte_of_string "a.org;com")
  = (loaded, Some (errMalformedExact "com")).
Proof. split; vm_compute; reflexivity. Qed.

(** ** Witnesses *)

Lemma checkHostLists_blacklisted_iff_witness :
  loadedWith (E := env) examplePolicy loaded /\
  checkHostLists (E := env) loaded "foo.example.com" = Some errBlacklisted.
Proof.
  split; [exact Example_loadedWith|].
  destruct (checkHostLists_blacklisted_iff (E := env) _ _ Example_loadedWith)
    as [H _].
  destruct (H "example.com") as (_ & _ & _ & Hin & _).
  apply (proj2 (Hin (list_elem_of_here _ _)) "foo").
Defined.

Lemma neverLoaded_fails_closed_witness :
  neverLoaded (E := env) (New allEnabled) /\
  checkHostLists (E := env) (New allEnabled) "example.com" = Some errNotLoaded.
Proof.
  split; [constructor|].
  apply (neverLoaded_fails_closed (E := env) (New allEnabled)
           (neverLoaded_New allEnabled) "example.com" (dns "example.com")).
Defined.

Lemma wildcardExactBlacklist_direct_parent_witness :
  loadedWith (E := env) examplePolicy loaded /\
  (checkWildcardHostList (E := env) loaded "example.org" = Some errBlacklisted
   <-> index (wildcardExactBlacklist loaded) "example.org" = true).
Proof.
  split; [exact Example_loadedWith|].
  destruct (wildcardExactBlacklist_direct_parent (E := env) _ _
              Example_loadedWith) as (_ & H & _).
  apply (H "example.org").
Defined.

Lemma notLoaded_error_has_no_class_witness :
  neverLoaded (E := env) (New allEnabled) /\
  otherwiseValid (E := env) (dns "example.org") /\
  WillingToIssue (E := env) (New allEnabled) (dns "example.org")
  = Some errNotLoaded.
Proof.
  assert (otherwiseValid (E := env) (dns "example.org")) as Hv
    by (vm_compute; reflexivity).
  split; [constructor|]. split; [exact Hv|].
  apply (notLoaded_error_has_no_class (E := env) (New allEnabled)
           (dns "example.org") (neverLoaded_New allEnabled) Hv).
Defined.

Lemma ChallengesFor_wildcard_witness :
  PermContract (E := env) /\ ChallengeTypeContract (E := env) /\
  exists pa' ent' res,
    ChallengesFor (E := env) loaded (dns "*.foo.org") 1 false (0 : nat)
    = Some (pa', ent', res).
Proof.
  split; [exact Example_PermContract|].
  split; [exact Example_ChallengeTypeContract|].
  destruct (ChallengesFor_wildcard (E := env) loaded (dns "*.foo.org") 1 false
              (0 : nat) Example_PermContract Example_ChallengeTypeContract)
    as (_ & _ & pa' & ent' & res & H & _).
  exists pa', ent', res. exact H.
Defined.

Lemma ChallengesFor_all_enabled_deterministic_witness :
  PermContract (E := env) /\ ChallengeTypeContract (E := env) /\
  option_map orderOf
    <$> serve (E := env) (New allEnabled) (0 : nat)
          [(dns "foo.org", 1%Z, false); (dns "*.foo.org", 2%Z, false)]
  = option_map orderOf
    <$> serve (E := env) (New allEnabled) (7 : nat)
          [(dns "foo.org", 1%Z, false); (dns "*.foo.org", 2%Z, false)].
Proof.
  split; [exact Example_PermContract|].
  split; [exact Example_ChallengeTypeContract|].
  apply (ChallengesFor_all_enabled_deterministic (E := env)
           Example_PermContract Example_ChallengeTypeContract).
Defined.

Lemma ChallengesFor_permutation_witness :
  PermContract (E := env) /\
  exists pa' ent' res,
    ChallengesFor (E := env) loaded (dns "foo.org") 1 false (0 : nat)
    = Some (pa', ent', res).
Proof.
  split; [exact Example_PermContract|].
  destruct (ChallengesFor_permutation (E := env) loaded (dns "foo.org") 1 false
              (0 : nat) Example_PermContract) as (pa' & ent' & res & H & _).
  exists pa', ent', res. exact H.
Defined.

(** ** More of the file: the whitelist of challenge types *)

Section Coverage.
Context `{E : External}.

Lemma buildAccountSet_index l m k :
  index (Some (buildAccountSet l m)) k = true <-> k ∈ l \/ index (Some m) k = true.
Proof.
  revert m. induction l as [|v l IH]; intros m; simpl.
  - split; [tauto|]. intros [Hin|?]; [|done]. by apply elem_of_nil in Hin.
  - rewrite IH, index_insert, elem_of_cons. intuition congruence.
Qed.

(** The validators look at the authority through the three maps only. *)
Lemma WillingToIssue_ext pa1 pa2 id :
  blacklist pa1 = blacklist pa2 ->
  exactBlacklist pa1 = exactBlacklist pa2 ->
  WillingToIssue pa1 id = WillingToIssue pa2 id.
Proof.
  intros Hbl Hex. unfold WillingToIssue, checkHostLists. by rewrite Hbl, Hex.
Qed.

Lemma WillingToIssueWildcard_ext pa1 pa2 id :
  blacklist pa1 = blacklist pa2 ->
  exactBlacklist pa1 = exactBlacklist pa2 ->
  wildcardExactBlacklist pa1 = wildcardExactBlacklist pa2 ->
  WillingToIssueWildcard pa1 id = WillingToIssueWildcard pa2 id.
Proof.
  intros Hbl Hex Hw. unfold WillingToIssueWildcard, checkWildcardHostList.
  rewrite Hbl, Hw, !(WillingToIssue_ext pa1 pa2) by done. done.
Qed.

Lemma ChallengeTypeEnabled_ext pa1 pa2 t regID :
  enabledChallenges pa1 = enabledChallenges pa2 ->
  enabledChallengesWhitelist pa1 = enabledChallengesWhitelist pa2 ->
  ChallengeTypeEnabled pa1 t regID = ChallengeTypeEnabled pa2 t regID.
Proof. intros H1 H2. unfold ChallengeTypeEnabled. by rewrite H1, H2. Qed.

(** X1: after a whitelist document has been decoded and loaded, a challenge
    type is enabled for an account exactly when it is globally enabled or
    the document lists the account under that type; what an earlier
    whitelist allowed no longer counts. The load itself returns no
    error. *)
Theorem loadChallengesWhitelist_enabled pa b wl :
  jsonUnmarshalWhitelist b = inr wl ->
  snd (loadChallengesWhitelist pa b) = None /\
  forall t regID,
    ChallengeTypeEnabled (fst (loadChallengesWhitelist pa b)) t regID = true <->
    index (enabledChallenges pa) t = true \/
    exists accounts, wl !! t = Some accounts /\ regID ∈ accounts.
Proof.
  intros Hwl. unfold loadChallengesWhitelist. rewrite Hwl. split; [done|].
  intros t regID. rewrite ChallengeTypeEnabled_iff.
  cbn [fst enabledChallenges enabledChallengesWhitelist]. split.
  - intros [?|(wl' & accounts & [= <-] & Hl & Hi)]; [by left|right].
    rewrite lookup_fmap in Hl. destruct (wl !! t) as [l|] eqn:Ht; [|done].
    injection Hl as <-. exists l. split; [done|].
    apply buildAccountSet_index in Hi as [?|Hi]; [done|].
    by rewrite index_empty in Hi.
  - intros [?|(accounts & Hl & Hin)]; [by left|right].
    eexists _, _. split; [reflexivity|]. rewrite lookup_fmap, Hl. split; [done|].
    apply buildAccountSet_index. by left.
Qed.

(** X2: a load of the whitelist either fails and leaves the authority as it
    was, or changes the whitelist alone: the two validators answer as
    before, and the globally enabled types and the generator are the
    same. *)
Theorem loadChallengesWhitelist_frame pa b :
  (forall err, snd (loadChallengesWhitelist pa b) = Some err ->
     fst (loadChallengesWhitelist pa b) = pa) /\
  (forall id, WillingToIssue (fst (loadChallengesWhitelist pa b)) id
              = WillingToIssue pa id) /\
  (forall id, WillingToIssueWildcard (fst (loadChallengesWhitelist pa b)) id
              = WillingToIssueWildcard pa id) /\
  enabledChallenges (fst (loadChallengesWhitelist pa b)) = enabledChallenges pa /\
  pseudoRNG (fst (loadChallengesWhitelist pa b)) = pseudoRNG pa.
Proof.
  unfold loadChallengesWhitelist.
  destruct (jsonUnmarshalWhitelist b) as [err|wl]; cbn [fst snd].
  - done.
  - split; [discriminate|]. split; [|split; [|done]].
    + intros id. by apply WillingToIssue_ext.
    + intros id. by apply WillingToIssueWildcard_ext.
Qed.

(** X3: the hostname policy and the challenge selection do not touch each
    other. A load of a hostname policy, whether it succeeds or fails, keeps
    which challenge types are enabled for which account and the state of
    the generator; a call of ChallengesFor keeps the answers of the two
    validators and the enabled challenge types. *)
Theorem policy_and_challenges_independent pa :
  (forall b t regID,
     ChallengeTypeEnabled (fst (loadHostnamePolicy pa b)) t regID
     = ChallengeTypeEnabled pa t regID) /\
  (forall b, pseudoRNG (fst (loadHostnamePolicy pa b)) = pseudoRNG pa) /\
  (forall identifier regID revalidation ent pa' ent' res,
     ChallengesFor pa identifier regID revalidation ent = Some (pa', ent', res) ->
     (forall id, WillingToIssue pa' id = WillingToIssue pa id) /\
     (forall id, WillingToIssueWildcard pa' id = WillingToIssueWildcard pa id) /\
     (forall t r, ChallengeTypeEnabled pa' t r = ChallengeTypeEnabled pa t r)).
Proof.
  split; [|split].
  - intros b t regID. apply ChallengeTypeEnabled_ext; unfold loadHostnamePolicy;
      destruct (jsonUnmarshalBlacklist b) as [e|bl]; try done;
      destruct (length (Blacklist bl) =? 0); try done;
      by destruct (buildExactMaps (ExactBlacklist bl) ∅ ∅) as [e|[em wm]].
  - intros b. unfold loadHostnamePolicy.
    destruct (jsonUnmarshalBlacklist b) as [e|bl]; [done|].
    destruct (length (Blacklist bl) =? 0); [done|].
    by destruct (buildExactMaps (ExactBlacklist bl) ∅ ∅) as [e|[em wm]].
  - intros id regID reval ent pa' ent' res Hc.
    destruct (ChallengesFor_policy _ _ _ _ _ _ _ _ Hc) as (Hbl & Hex & Hw).
    split; [|split].
    + intros id'. by apply WillingToIssue_ext.
    + intros id'. by apply WillingToIssueWildcard_ext.
    + intros t r. unfold ChallengesFor in Hc.
      destruct (selectChallenges pa id regID reval ent) as [[err|chs] ent0].
      * by injection Hc as <- _ _.
      * destruct (shuffleChallenges (pseudoRNG pa) chs) as [[[sh co] rng]|];
          [|discriminate].
        by injection Hc as <- _ _.
Qed.

(** ** More of the file: what the identifier validator lets through *)

Lemma Split_chars (sep : ascii) (s : string) (c : ascii) :
  In c (list_ascii_of_string s) ->
  c = sep \/ exists l, l ∈ strings.Split s sep /\ In c (list_ascii_of_string l).
Proof.
  induction s as [|d s IH]; simpl; [done|].
  destruct (Ascii.eqb_spec d sep) as [->|Hne].
  - intros [<-|Hin]; [by left|].
    destruct (IH Hin) as [?|(l & Hl & Hc)]; [by left|right].
    exists l. split; [by apply elem_of_cons; right|done].
  - destruct (strings.Split s sep) as [|l0 ls] eqn:Hs.
    { by apply Split_nonempty in Hs. }
    intros [<-|Hin].
    + right. exists (String d l0). split; [by apply elem_of_cons; left|].
      by left.
    + destruct (IH Hin) as [?|(l & Hl & Hc)]; [by left|right].
      apply elem_of_cons in Hl as [->|Hl].
      * exists (String d l0). split; [by apply elem_of_cons; left|].
        by right.
      * exists l. split; [by apply elem_of_cons; right|done].
Qed.

Lemma Count_pos_In (s : string) (c : ascii) :
  0 < strings.Count s c -> In c (list_ascii_of_string s).
Proof.
  induction s as [|d s IH]; simpl; [lia|].
  destruct (Ascii.eqb_spec d c) as [->|Hne]; [by left|].
  intros H. right. apply IH. lia.
Qed.

Lemma HasSuffix_inv (s suffix : string) :
  strings.HasSuffix s suffix = true -> exists p, s = p +:+ suffix.
Proof.
  induction s as [|d s IH]; cbn [strings.HasSuffix].
  - rewrite orb_false_r. intros <-%String.eqb_eq. by exists EmptyString.
  - intros [<-%String.eqb_eq|Hs]%orb_true_iff; [by exists EmptyString|].
    destruct (IH Hs) as [p ->]. by exists (String d p).
Qed.

Lemma HasPrefix_star_chars (s : string) :
  strings.HasPrefix s "*." = true ->
  forallb isDNSCharacter (list_ascii_of_string s) = false.
Proof.
  intros ->%HasPrefix_inv.
  apply forallb_isDNSCharacter_false with "*"%char; [|done].
  rewrite !append_cons. by left.
Qed.

Lemma checkLabel_None label :
  checkLabel label = None -> wellFormedLabel label.
Proof.
  unfold checkLabel, wellFormedLabel, punycodeRegexp.
  destruct (Nat.ltb_spec (String.length label) 1); [discriminate|].
  destruct (Nat.ltb_spec maxLabelLength (String.length label)); [discriminate|].
  destruct (dnsLabelRegexp label) eqn:Hre; [|discriminate]. cbn [negb].
  destruct (bool_decide_reflect (lastByte label = Some "-"%char));
    [discriminate|].
  intros Hrest. split; [lia|]. split; [|split; [done|]].
  - destruct label as [|c rest]; [done|]. unfold dnsLabelRegexp in Hre.
    apply andb_true_iff in Hre as [[Hc Hr]%andb_true_iff _].
    by exists c, rest.
  - destruct (strings.HasPrefix label "xn--").
    + split; [done|]. intros _. destruct (ToUnicode label) as [u|]; [|done].
      exists u. split; [done|]. by destruct (IsNormalString u).
    + split; [|done]. by destruct (idnReservedRegexp label).
Qed.

Lemma checkLabels_None labels :
  checkLabels labels = None -> Forall wellFormedLabel labels.
Proof.
  induction labels as [|l labels IH]; simpl; [by constructor|].
  destruct (checkLabel l) eqn:Hl; [discriminate|].
  intros H. constructor; [by apply checkLabel_None|by apply IH].
Qed.

Lemma wellFormedLabel_chars label c :
  wellFormedLabel label -> In c (list_ascii_of_string label) -> isLDH c = true.
Proof.
  intros (_ & (c0 & rest & -> & Hc0 & Hrest) & _) [<-|Hin].
  - unfold isLDH. by rewrite Hc0.
  - rewrite forallb_forall in Hrest. by apply Hrest.
Qed.

(** What an accepted identifier looks like. *)
Lemma WillingToIssue_None pa id :
  WillingToIssue pa id = None ->
  Type_ id = IdentifierDNS /\
  1 <= String.length (Value id) <= maxDNSIdentifierLength /\
  strings.HasSuffix (Value id) "." = false /\
  2 <= length (strings.Split (Value id) "."%char) <= maxLabels /\
  Forall wellFormedLabel (strings.Split (Value id) "."%char) /\
  ParseIP (Value id) = false /\
  (exists icannTLD,
     ExtractSuffix (Value id) = Some icannTLD /\ icannTLD <> Value id) /\
  checkHostLists pa (Value id) = None.
Proof.
  unfold WillingToIssue.
  destruct (String.eqb_spec (Type_ id) IdentifierDNS) as [Ht|]; [|discriminate].
  cbn [negb]. cbv zeta.
  destruct (String.eqb_spec (Value id) EmptyString) as [|Hne]; [discriminate|].
  destruct (strings.HasPrefix (Value id) "*."); [discriminate|].
  destruct (forallb isDNSCharacter _); [|discriminate]. cbn [negb].
  destruct (Nat.ltb_spec maxDNSIdentifierLength (String.length (Value id)));
    [discriminate|].
  destruct (ParseIP (Value id)); [discriminate|].
  destruct (strings.HasSuffix (Value id) "."); [discriminate|].
  destruct (Nat.ltb_spec maxLabels (length (strings.Split (Value id) "."%char)));
    [discriminate|].
  destruct (Nat.ltb_spec (length (strings.Split (Value id) "."%char)) 2);
    [discriminate|].
  destruct (checkLabels _) eqn:Hl; [discriminate|].
  destruct (ExtractSuffix (Value id)) as [tld|]; [|discriminate].
  destruct (String.eqb_spec tld (Value id)); [discriminate|].
  destruct (checkHostLists pa (Value id)); [discriminate|]. intros _.
  repeat split; try done; try lia.
  - destruct (Value id); [done|simpl; lia].
  - by apply checkLabels_None.
  - by exists tld.
Qed.

(** X4: an identifier WillingToIssue accepts is a DNS identifier of 1 to
    230 bytes without a trailing dot, of 2 to 10 labels, each of them well
    formed (1 to 63 bytes, lower case letters, digits and hyphens, no
    hyphen first or last, the reserved form only with the ACE prefix, an
    ACE label that decodes to normal form C); so every byte of it is a
    lower case letter, a digit, a hyphen or a dot, and no upper case letter
    passes although isDNSCharacter allows them. It is no IP address, it has
    a public suffix other than itself, and the hostname policy lets it
    through. *)
Theorem WillingToIssue_accepted pa id :
  WillingToIssue pa id = None ->
  Type_ id = IdentifierDNS /\
  1 <= String.length (Value id) <= maxDNSIdentifierLength /\
  strings.HasSuffix (Value id) "." = false /\
  2 <= length (strings.Split (Value id) "."%char) <= maxLabels /\
  Forall wellFormedLabel (strings.Split (Value id) "."%char) /\
  (forall c, In c (list_ascii_of_string (Value id)) ->
             isLDH c = true \/ c = "."%char) /\
  ParseIP (Value id) = false /\
  (exists icannTLD,
     ExtractSuffix (Value id) = Some icannTLD /\ icannTLD <> Value id) /\
  checkHostLists pa (Value id) = None.
Proof.
  intros (Ht & Hlen & Hdot & Hcount & Hlabels & Hip & Hsuf & Hh)%WillingToIssue_None.
  repeat split; try done; try lia.
  intros c [->|(l & Hl & Hc)]%(Split_chars "."%char); [by right|left].
  rewrite Forall_forall in Hlabels. eapply wellFormedLabel_chars; eauto.
Qed.

(** X5: WillingToIssue never accepts a value that holds an asterisk: it
    returns the invalid identifier error, the wildcard not supported error
    or the invalid character error. *)
Theorem WillingToIssue_asterisk pa id :
  0 < strings.Count (Value id) "*"%char ->
  WillingToIssue pa id = Some errInvalidIdentifier \/
  WillingToIssue pa id = Some errWildcardNotSupported \/
  WillingToIssue pa id = Some errInvalidDNSCharacter.
Proof.
  intros Hin%Count_pos_In. unfold WillingToIssue.
  destruct (negb _); [by left|]. cbv zeta.
  destruct (String.eqb_spec (Value id) EmptyString) as [Heq|_].
  { rewrite Heq in Hin. destruct Hin. }
  destruct (strings.HasPrefix (Value id) "*."); [by right; left|].
  rewrite (forallb_isDNSCharacter_false _ _ Hin) by done. by right; right.
Qed.

(** X6: for a DNS identifier whose value is not empty, holds only DNS
    characters, has at most 230 bytes and is no IP address, WillingToIssue
    returns the too few labels error when the value holds no dot, and the
    label too short error when the value does not end in a dot, has at
    most 10 labels, and has an empty label before which every label
    passes (a leading dot, two dots in a row). *)
Theorem WillingToIssue_label_edges pa id :
  Type_ id = IdentifierDNS ->
  Value id <> EmptyString ->
  forallb isDNSCharacter (list_ascii_of_string (Value id)) = true ->
  String.length (Value id) <= maxDNSIdentifierLength ->
  ParseIP (Value id) = false ->
  (strings.Count (Value id) "."%char = 0 ->
     WillingToIssue pa id = Some errTooFewLabels) /\
  (strings.HasSuffix (Value id) "." = false ->
   length (strings.Split (Value id) "."%char) <= maxLabels ->
   forall before after,
     strings.Split (Value id) "."%char = before ++ EmptyString :: after ->
     checkLabels before = None ->
     WillingToIssue pa id = Some errLabelTooShort).
Proof.
  intros Ht Hne Hchars Hlen Hip.
  assert (strings.HasPrefix (Value id) "*." = false) as Hp.
  { destruct (strings.HasPrefix (Value id) "*.") eqn:Hp; [|done].
    apply HasPrefix_star_chars in Hp. congruence. }
  rewrite WillingToIssue_from_characters by done.
  unfold checksLabelByLabel, checksBeforeLabels. cbv zeta. cbn [app drop].
  rewrite Hchars, Hip.
  destruct (Nat.ltb_spec maxDNSIdentifierLength (String.length (Value id)));
    [lia|].
  cbn [negb failWhen firstFailure]. split.
  - intros Hcount.
    destruct (strings.HasSuffix (Value id) ".") eqn:Hs.
    { apply HasSuffix_inv in Hs as [p Hs]. rewrite Hs, Count_app in Hcount.
      simpl in Hcount. lia. }
    rewrite Split_length, Hcount. reflexivity.
  - intros -> Hmax before after Hsplit Hbefore.
    assert (2 <= length (strings.Split (Value id) "."%char)) as Hmin.
    { rewrite Hsplit, length_app. cbn [length].
      destruct before as [|b0 before]; [|simpl; lia].
      destruct after as [|a0 after]; [|simpl; lia].
      exfalso. apply Hne. rewrite <- (Join_Split "."%char (Value id)).
      by rewrite Hsplit. }
    destruct (Nat.ltb_spec maxLabels (length (strings.Split (Value id) "."%char)));
      [lia|].
    destruct (Nat.ltb_spec (length (strings.Split (Value id) "."%char)) 2);
      [lia|].
    rewrite firstFailure_app, <- checkLabels_checks, Hsplit, checkLabels_app.
    by rewrite Hbefore.
Qed.

(** X12: on an authority that holds a hostname policy, every error of
    WillingToIssue and of WillingToIssueWildcard is a malformed request
    error or a rejected identifier error, and it is a rejected identifier
    error only for a blacklisted name and for a label of the reserved
    form. *)
Theorem validators_errors_classified pa nameMap id err :
  blacklist pa = Some nameMap ->
  WillingToIssue pa id = Some err \/ WillingToIssueWildcard pa id = Some err ->
  classified err.
Proof.
  intros Hbl.
  assert (forall id' e, WillingToIssue pa id' = Some e -> classified e) as Hplain.
  { intros id' e He. apply (WillingToIssue_documented _ _ _ _ Hbl) in He.
    unfold documentedErrors in He. unfold classified.
    repeat (apply elem_of_cons in He as [->|He]; [cbn; by auto|]).
    by apply elem_of_nil in He. }
  intros [He|He]; [by eapply Hplain|]. revert He.
  unfold WillingToIssueWildcard.
  destruct (negb _); [intros [= <-]; by left|]. cbv zeta.
  destruct (1 <? _); [intros [= <-]; by left|].
  destruct (_ =? 1); [|by apply Hplain].
  destruct (negb _); [intros [= <-]; by left|].
  destruct (ExtractSuffix _); [|intros [= <-]; by left].
  destruct (String.eqb _ _); [intros [= <-]; by left|].
  rewrite (checkWildcardHostList_loaded _ _ _ Hbl).
  destruct (index _ _); [intros [= <-]; right; by auto|].
  by apply Hplain.
Qed.

(** ** More of the file: what the wildcard validator lets through *)

Lemma checkSuffixes_empty labels idxs :
  checkSuffixes (Some ∅) labels idxs = None.
Proof.
  induction idxs as [|i idxs IH]; simpl; [done|]. by rewrite index_empty.
Qed.

(** The validator is its checks before the hostname policy, which do not
    look at the authority, and then the hostname policy. *)
Lemma WillingToIssue_split pa id :
  WillingToIssue pa id =
    match WillingToIssue permissive id with
    | Some err => Some err
    | None => checkHostLists pa (Value id)
    end.
Proof.
  assert (checkHostLists permissive (Value id) = None) as Hperm.
  { unfold checkHostLists, permissive. cbn [blacklist exactBlacklist].
    by rewrite checkSuffixes_empty, index_empty. }
  unfold WillingToIssue. rewrite Hperm.
  repeat match goal with
         | |- context [if ?c then _ else _] => destruct c; [done|]
         end.
  cbv zeta.
  repeat match goal with
         | |- context [if ?c then _ else _] => destruct c; [done|]
         end.
  destruct (checkLabels _); [done|].
  destruct (ExtractSuffix _); [|done].
  destruct (String.eqb _ _); [done|].
  by destruct (checkHostLists pa (Value id)).
Qed.

Lemma WillingToIssue_None_iff pa id :
  WillingToIssue pa id = None <->
  otherwiseValid id /\ checkHostLists pa (Value id) = None.
Proof.
  unfold otherwiseValid. rewrite (WillingToIssue_split pa id).
  destruct (WillingToIssue permissive id); [|tauto].
  split; [discriminate|]. by intros [? _].
Qed.

Lemma checkHostLists_None_iff bl pa D :
  loadedWith bl pa ->
  checkHostLists pa D = None <->
  (forall s, isLabelSuffix s D -> s ∉ Blacklist bl) /\ D ∉ ExactBlacklist bl.
Proof.
  intros (em & wm & Hmaps & Hbl & Hex & _)%loadedWith_maps.
  destruct (buildExactMaps_index _ _ _ _ _ Hmaps) as (_ & Hem & _).
  assert (forall s, index (Some (buildNameMap (Blacklist bl) ∅)) s = true
                    <-> s ∈ Blacklist bl) as Hname.
  { intros s. rewrite buildNameMap_index, index_empty. intuition discriminate. }
  assert (forall k, index (exactBlacklist pa) k = true <-> k ∈ ExactBlacklist bl)
    as Hexact.
  { intros k. rewrite Hex, Hem, index_empty. intuition discriminate. }
  destruct (checkHostLists_loaded pa _ D Hbl)
    as [[-> Hyes]|(-> & Hno & Hnoex)].
  - split; [discriminate|]. intros [Hs Hx]. exfalso.
    destruct Hyes as [(s & Hsuf & Hi)|Hi].
    + apply (Hs s Hsuf). by apply Hname.
    + apply Hx. by apply Hexact.
  - split; [intros _|done]. split.
    + intros s Hsuf Hin%Hname. rewrite (Hno s Hsuf) in Hin. discriminate.
    + intros Hin%Hexact. rewrite Hnoex in Hin. discriminate.
Qed.

Lemma append_length (a b : string) :
  String.length (a +:+ b) = String.length a + String.length b.
Proof.
  induction a as [|c a IH]; [done|]. rewrite append_cons. simpl. by rewrite IH.
Qed.

Lemma not_isDirectParent_self base : ~ isDirectParent base base.
Proof.
  intros (a & _ & Hv). apply (f_equal String.length) in Hv.
  rewrite append_length in Hv. simpl in Hv. lia.
Qed.

(** X7: on an authority loaded with a policy document,
    WillingToIssueWildcard accepts the identifier made of an asterisk, a
    dot and a base domain without an asterisk exactly when the base domain
    has a public suffix other than itself, no exact blacklist entry is the
    base domain with one more label in front, the name made of x, a dot
    and the base domain passes every check of WillingToIssue that does not
    look at the policy, no label suffix of that name is a blacklist entry,
    and that name is no exact blacklist entry. The base domain itself being
    an exact blacklist entry plays no part: it is neither its own parent
    nor the name with the x in front. *)
Theorem WillingToIssueWildcard_accepted_iff bl pa base :
  loadedWith bl pa ->
  strings.Count base "*"%char = 0 ->
  (WillingToIssueWildcard pa {| Type_ := IdentifierDNS; Value := "*." +:+ base |}
   = None <->
   (exists icannTLD, ExtractSuffix base = Some icannTLD /\ icannTLD <> base) /\
   (forall v, v ∈ ExactBlacklist bl -> ~ isDirectParent base v) /\
   otherwiseValid {| Type_ := IdentifierDNS; Value := "x." +:+ base |} /\
   (forall s, isLabelSuffix s ("x." +:+ base) -> s ∉ Blacklist bl) /\
   "x." +:+ base ∉ ExactBlacklist bl) /\
  ~ isDirectParent base base /\
  "x." +:+ base <> base.
Proof.
  intros Hloaded Hcount. split; [|split].
  - rewrite (WillingToIssueWildcard_base pa _ base) by done.
    pose proof Hloaded as (em & wm & Hmaps & Hbl & _ & Hwild)%loadedWith_maps.
    destruct (buildExactMaps_index _ _ _ _ _ Hmaps) as (_ & _ & Hwm).
    assert (index (wildcardExactBlacklist pa) base = true <->
            exists v, v ∈ ExactBlacklist bl /\ isDirectParent base v) as Hmem.
    { rewrite Hwild, Hwm, index_empty. intuition discriminate. }
    rewrite (checkWildcardHostList_loaded _ _ _ Hbl).
    destruct (ExtractSuffix base) as [tld|].
    + destruct (String.eqb_spec base tld) as [->|Hne].
      * split; [discriminate|]. by intros [(t & [= <-] & Ht) _].
      * destruct (index (wildcardExactBlacklist pa) base) eqn:Hi.
        -- split; [discriminate|]. intros (_ & Hnone & _). exfalso.
           destruct (proj1 Hmem eq_refl) as (v & Hv & Hp). by apply (Hnone v).
        -- rewrite WillingToIssue_None_iff.
           rewrite (checkHostLists_None_iff bl pa _ Hloaded). cbn [Value].
           split.
           ++ intros (Hv & Hs & Hx). split; [by exists tld|].
              split; [|done]. intros v Hin Hp.
              by pose proof (proj2 Hmem (ex_intro _ v (conj Hin Hp))).
           ++ intros (_ & _ & Hv & Hs & Hx). done.
    + split; [discriminate|]. by intros [(t & [=] & _) _].
  - apply not_isDirectParent_self.
  - intros Heq. apply (f_equal String.length) in Heq.
    rewrite append_length in Heq. simpl in Heq. lia.
Qed.

(** X8: when WillingToIssueWildcard accepts a value made of an asterisk, a
    dot and a base domain, the base domain holds no asterisk, has at most
    228 bytes and at most 9 labels, all of them well formed, has a public
    suffix other than itself and passes checkWildcardHostList: the x and
    the dot put in front of it count against the bounds of 230 bytes and
    10 labels. *)
Theorem WillingToIssueWildcard_accepted_base pa ident base :
  Value ident = "*." +:+ base ->
  WillingToIssueWildcard pa ident = None ->
  strings.Count base "*"%char = 0 /\
  String.length base <= 228 /\
  1 <= length (strings.Split base "."%char) <= 9 /\
  Forall wellFormedLabel (strings.Split base "."%char) /\
  (exists icannTLD, ExtractSuffix base = Some icannTLD /\ icannTLD <> base) /\
  checkWildcardHostList pa base = None.
Proof.
  intros Hv Hacc.
  assert (Type_ ident = IdentifierDNS) as Ht.
  { unfold WillingToIssueWildcard in Hacc.
    by destruct (String.eqb_spec (Type_ ident) IdentifierDNS). }
  assert (strings.Count base "*"%char = 0) as Hcount.
  { unfold WillingToIssueWildcard in Hacc.
    rewrite Ht, String.eqb_refl, Hv, Count_app in Hacc. cbn [negb] in Hacc.
    change (strings.Count "*." "*"%char) with 1 in Hacc.
    destruct (strings.Count base "*"%char) as [|n]; [done|].
    by destruct (Nat.ltb_spec 1 (1 + S n)); [|lia]. }
  rewrite (WillingToIssueWildcard_base pa ident base Ht Hv Hcount) in Hacc.
  destruct (ExtractSuffix base) as [tld|]; [|discriminate].
  destruct (String.eqb_spec base tld) as [|Hne]; [discriminate|].
  destruct (checkWildcardHostList pa base); [discriminate|].
  apply WillingToIssue_None in Hacc
    as (_ & Hlen & _ & Hlabels & Hwf & _). cbn [Value] in *.
  change ("x." +:+ base) with ("x" +:+ String "."%char base) in *.
  rewrite Split_app in Hlabels, Hwf. rewrite append_length in Hlen.
  change (strings.Split "x" "."%char) with ["x"] in *.
  cbn [app length String.length] in *. unfold maxDNSIdentifierLength in Hlen.
  unfold maxLabels in Hlabels. apply Forall_cons in Hwf as [_ Hwf].
  pose proof (Split_length "."%char base).
  repeat split; try done; try lia. by exists tld.
Qed.

(** ** More of the file: the policy document as a set *)

Lemma onlyTrue_empty `{Countable K} : onlyTrue (∅ : gmap K bool).
Proof. intros k v Hk. by rewrite lookup_empty in Hk. Qed.

Lemma onlyTrue_insert `{Countable K} (m : gmap K bool) (k : K) :
  onlyTrue m -> onlyTrue (<[k := true]> m).
Proof.
  intros Hm k' v. destruct (decide (k = k')) as [->|Hne].
  - rewrite lookup_insert_eq. by intros [= <-].
  - rewrite lookup_insert_ne by done. apply Hm.
Qed.

Lemma onlyTrue_eq `{Countable K} (m1 m2 : gmap K bool) :
  onlyTrue m1 -> onlyTrue m2 ->
  (forall k, index (Some m1) k = true <-> index (Some m2) k = true) ->
  m1 = m2.
Proof.
  intros H1 H2 Hi. apply map_eq. intros k. specialize (Hi k).
  unfold index in Hi.
  destruct (m1 !! k) as [v1|] eqn:Hk1, (m2 !! k) as [v2|] eqn:Hk2; simpl in Hi.
  - by rewrite (H1 _ _ Hk1), (H2 _ _ Hk2).
  - rewrite (H1 _ _ Hk1) in Hi. by pose proof (proj1 Hi eq_refl).
  - rewrite (H2 _ _ Hk2) in Hi. by pose proof (proj2 Hi eq_refl).
  - done.
Qed.

Lemma buildNameMap_onlyTrue l m : onlyTrue m -> onlyTrue (buildNameMap l m).
Proof.
  revert m. induction l as [|v l IH]; intros m Hm; simpl; [done|].
  by apply IH, onlyTrue_insert.
Qed.

Lemma buildExactMaps_onlyTrue l em wm em' wm' :
  onlyTrue em -> onlyTrue wm ->
  buildExactMaps l em wm = inr (em', wm') ->
  onlyTrue em' /\ onlyTrue wm'.
Proof.
  revert em wm. induction l as [|v l IH]; intros em wm Hem Hwm; simpl.
  - by intros [= <- <-].
  - destruct (strings.SplitN2 v "."%char) as [|a [|rest parts]]; try discriminate.
    apply IH; by apply onlyTrue_insert.
Qed.

(** X9: the store a policy document leaves behind depends on the sets of
    its entries only: after two documents with the same Blacklist entries
    and the same ExactBlacklist entries, in whatever order and however
    often repeated, a successful load of the first and a load of the second
    give the same authority. *)
Theorem loadHostnamePolicy_order_irrelevant pa b1 b2 bl1 bl2 pa' :
  jsonUnmarshalBlacklist b1 = inr bl1 ->
  jsonUnmarshalBlacklist b2 = inr bl2 ->
  (forall k, k ∈ Blacklist bl1 <-> k ∈ Blacklist bl2) ->
  (forall k, k ∈ ExactBlacklist bl1 <-> k ∈ ExactBlacklist bl2) ->
  loadHostnamePolicy pa b1 = (pa', None) ->
  loadHostnamePolicy pa b2 = (pa', None).
Proof.
  intros Hb1 Hb2 Hsame Hsamex Hload.
  destruct (loadHostnamePolicy_success _ _ _ Hload)
    as (bl & em1 & wm1 & Hb & Hne & Hmaps1 & Hbl & Hex & Hwild & Hen & Hwl & Hrng).
  rewrite Hb1 in Hb. injection Hb as <-.
  unfold loadHostnamePolicy. rewrite Hb2.
  destruct (Blacklist bl2) as [|x l2] eqn:Hl2.
  { exfalso. destruct (Blacklist bl1) as [|y l1]; [done|].
    apply (elem_of_nil y), Hsame. by apply elem_of_cons; left. }
  cbn [length Nat.eqb]. rewrite <- Hl2 in Hsame |- *.
  destruct (buildExactMaps_index _ _ _ _ _ Hmaps1) as (Hlab1 & Hem1 & Hwm1).
  destruct (buildExactMaps_onlyTrue _ _ _ _ _ onlyTrue_empty onlyTrue_empty Hmaps1)
    as [Ht1 Htw1].
  destruct (buildExactMaps (ExactBlacklist bl2) ∅ ∅) as [err|[em2 wm2]] eqn:Hmaps2.
  { exfalso. apply buildExactMaps_error in Hmaps2 as (v & Hin & Hv & _).
    by apply (Hlab1 v); [apply Hsamex|]. }
  destruct (buildExactMaps_index _ _ _ _ _ Hmaps2) as (_ & Hem2 & Hwm2).
  destruct (buildExactMaps_onlyTrue _ _ _ _ _ onlyTrue_empty onlyTrue_empty Hmaps2)
    as [Ht2 Htw2].
  assert (buildNameMap (Blacklist bl2) ∅ = buildNameMap (Blacklist bl1) ∅) as ->.
  { apply onlyTrue_eq; try (apply buildNameMap_onlyTrue, onlyTrue_empty).
    intros k. rewrite !buildNameMap_index. specialize (Hsame k). tauto. }
  assert (em2 = em1) as ->.
  { apply onlyTrue_eq; try done. intros k. rewrite Hem1, Hem2.
    specialize (Hsamex k). tauto. }
  assert (wm2 = wm1) as ->.
  { apply onlyTrue_eq; try done. intros k. rewrite Hwm1, Hwm2.
    split; (intros [(v & Hin & Hp)|?]; [left; exists v; split; [by apply Hsamex|done]|by right]). }
  f_equal. destruct pa'. cbn in *. by subst.
Qed.

(** ** More of the file: which challenges are returned *)

(** X10: for an identifier that is no wildcard, when none of the four
    challenge types is enabled for the account and the revalidation rule
    does not apply, ChallengesFor returns no challenges, no combinations
    and no error. *)
Theorem ChallengesFor_nothing_enabled pa identifier regID revalidation ent :
  PermContract ->
  strings.HasPrefix (Value identifier) "*." = false ->
  ChallengeTypeEnabled pa ChallengeTypeHTTP01 regID = false ->
  ChallengeTypeEnabled pa ChallengeTypeTLSSNI01 regID = false ->
  featureEnabled TLSSNIRevalidation && revalidation = false ->
  ChallengeTypeEnabled pa ChallengeTypeTLSALPN01 regID = false ->
  ChallengeTypeEnabled pa ChallengeTypeDNS01 regID = false ->
  exists pa' ent',
    ChallengesFor pa identifier regID revalidation ent
    = Some (pa', ent', {| resChallenges := []; resCombinations := [];
                          resErr := None |}).
Proof.
  intros HP Hp H1 H2 Hr H3 H4.
  assert (exists ent', selectChallenges pa identifier regID revalidation ent
                       = (inr [], ent')) as [ent' Hs].
  { unfold selectChallenges.
    destruct (if featureEnabled NewAuthorizationSchema then NewToken ent
              else (EmptyString, ent)) as [token ent0].
    rewrite Hp, H1, H2, Hr, H3, H4. by exists ent0. }
  rewrite (ChallengesFor_selected _ _ _ _ _ _ _ HP Hs). cbn [length].
  pose proof (HP (pseudoRNG pa) 0) as Hd1. apply Permutation_nil_r in Hd1.
  pose proof (HP (Perm (pseudoRNG pa) 0).2 0) as Hd2.
  apply Permutation_nil_r in Hd2. rewrite Hd1, Hd2. by eexists _, _.
Qed.

Lemma offeredTypes_NoDup pa regID reval : NoDup (offeredTypes pa regID reval).
Proof.
  unfold offeredTypes.
  destruct (ChallengeTypeEnabled pa ChallengeTypeHTTP01 regID),
    (ChallengeTypeEnabled pa ChallengeTypeTLSSNI01 regID ||
     featureEnabled TLSSNIRevalidation && reval),
    (ChallengeTypeEnabled pa ChallengeTypeTLSALPN01 regID),
    (ChallengeTypeEnabled pa ChallengeTypeDNS01 regID);
    by apply (bool_decide_unpack _).
Qed.

Lemma offeredTypes_elem pa regID reval t :
  t ∈ offeredTypes pa regID reval <->
  (t = ChallengeTypeHTTP01 /\
   ChallengeTypeEnabled pa ChallengeTypeHTTP01 regID = true) \/
  (t = ChallengeTypeTLSSNI01 /\
   (ChallengeTypeEnabled pa ChallengeTypeTLSSNI01 regID = true \/
    featureEnabled TLSSNIRevalidation = true /\ reval = true)) \/
  (t = ChallengeTypeTLSALPN01 /\
   ChallengeTypeEnabled pa ChallengeTypeTLSALPN01 regID = true) \/
  (t = ChallengeTypeDNS01 /\
   ChallengeTypeEnabled pa ChallengeTypeDNS01 regID = true).
Proof.
  unfold offeredTypes. rewrite !elem_of_app.
  destruct (ChallengeTypeEnabled pa ChallengeTypeHTTP01 regID),
    (ChallengeTypeEnabled pa ChallengeTypeTLSSNI01 regID),
    (featureEnabled TLSSNIRevalidation), reval,
    (ChallengeTypeEnabled pa ChallengeTypeTLSALPN01 regID),
    (ChallengeTypeEnabled pa ChallengeTypeDNS01 regID);
    cbn [orb andb]; rewrite ?list_elem_of_singleton, ?elem_of_nil;
    intuition congruence.
Qed.

(** X11: for an identifier that is no wildcard, the types of the challenges
    ChallengesFor returns are the offered types rearranged, each once:
    HTTP-01, TLS-ALPN-01 and DNS-01 exactly when enabled for the account,
    and TLS-SNI-01 exactly when it is enabled for the account or the
    revalidation flag of the features is set and the call is a
    revalidation. *)
Theorem ChallengesFor_types pa identifier regID revalidation ent pa' ent' res :
  PermContract -> ChallengeTypeContract ->
  strings.HasPrefix (Value identifier) "*." = false ->
  ChallengesFor pa identifier regID revalidation ent = Some (pa', ent', res) ->
  chType <$> resChallenges res ≡ₚ offeredTypes pa regID revalidation /\
  NoDup (chType <$> resChallenges res) /\
  forall t,
    t ∈ chType <$> resChallenges res <->
    (t = ChallengeTypeHTTP01 /\
     ChallengeTypeEnabled pa ChallengeTypeHTTP01 regID = true) \/
    (t = ChallengeTypeTLSSNI01 /\
     (ChallengeTypeEnabled pa ChallengeTypeTLSSNI01 regID = true \/
      featureEnabled TLSSNIRevalidation = true /\ revalidation = true)) \/
    (t = ChallengeTypeTLSALPN01 /\
     ChallengeTypeEnabled pa ChallengeTypeTLSALPN01 regID = true) \/
    (t = ChallengeTypeDNS01 /\
     ChallengeTypeEnabled pa ChallengeTypeDNS01 regID = true).
Proof.
  intros HP HC Hp Hc.
  destruct (ChallengesFor_order pa identifier regID revalidation ent HP HC)
    as (pa0 & ent0 & res0 & Hc0 & Hord).
  rewrite Hc in Hc0. injection Hc0 as <- <- <-.
  unfold offered in Hord. rewrite Hp in Hord. cbv zeta in Hord.
  destruct Hord as [_ Hord]. unfold orderOf in Hord.
  injection Hord as Hty _ _.
  assert (chType <$> resChallenges res ≡ₚ offeredTypes pa regID revalidation)
    as Hperm.
  { rewrite Hty, (HP (pseudoRNG pa) _). by rewrite fmap_lookup_seq. }
  split; [done|]. split.
  - rewrite Hperm. apply offeredTypes_NoDup.
  - intros t. rewrite Hperm. apply offeredTypes_elem.
Qed.

End Coverage.

(** ** Witnesses for the rest of the file *)

Lemma loadChallengesWhitelist_enabled_witness :
  jsonUnmarshalWhitelist (External := env) [x07]%byte
  = inr {[ ChallengeTypeDNS01 := [7%Z] ]} /\
  snd (loadChallengesWhitelist (E := env) (New None) [x07]%byte) = None.
Proof.
  assert (jsonUnmarshalWhitelist (External := env) [x07]%byte
          = inr {[ ChallengeTypeDNS01 := [7%Z] ]}) as H by reflexivity.
  split; [exact H|].
  apply (loadChallengesWhitelist_enabled (E := env) (New None) _ _ H).
Defined.

Lemma WillingToIssue_accepted_witness :
  WillingToIssue (E := env) loaded (dns "myexample.com") = None /\
  Type_ (dns "myexample.com") = IdentifierDNS.
Proof.
  assert (WillingToIssue (E := env) loaded (dns "myexample.com") = None) as H
    by (vm_compute; reflexivity).
  split; [exact H|].
  apply (WillingToIssue_accepted (E := env) loaded (dns "myexample.com") H).
Defined.

Lemma WillingToIssue_asterisk_witness :
  0 < strings.Count (Value (dns "a*.com")) "*"%char /\
  (WillingToIssue (E := env) loaded (dns "a*.com") = Some errInvalidIdentifier \/
   WillingToIssue (E := env) loaded (dns "a*.com")
   = Some errWildcardNotSupported \/
   WillingToIssue (E := env) loaded (dns "a*.com")
   = Some errInvalidDNSCharacter).
Proof.
  assert (0 < strings.Count (Value (dns "a*.com")) "*"%char) as H
    by (vm_compute; lia).
  split; [exact H|].
  apply (WillingToIssue_asterisk (E := env) loaded (dns "a*.com") H).
Defined.

Lemma WillingToIssue_label_edges_witness :
  Type_ (dns "localhost") = IdentifierDNS /\
  Value (dns "localhost") <> EmptyString /\
  forallb isDNSCharacter (list_ascii_of_string (Value (dns "localhost"))) = true /\
  String.length (Value (dns "localhost")) <= maxDNSIdentifierLength /\
  ParseIP (External := env) (Value (dns "localhost")) = false /\
  strings.Count (Value (dns "localhost")) "."%char = 0 /\
  WillingToIssue (E := env) loaded (dns "localhost") = Some errTooFewLabels.
Proof.
  assert (Value (dns "localhost") <> EmptyString) as Hne by discriminate.
  assert (String.length (Value (dns "localhost")) <= maxDNSIdentifierLength)
    as Hlen by (vm_compute; lia).
  split; [reflexivity|]. split; [exact Hne|]. split; [reflexivity|].
  split; [exact Hlen|]. split; [reflexivity|]. split; [reflexivity|].
  apply (proj1 (WillingToIssue_label_edges (E := env) loaded (dns "localhost")
                  eq_refl Hne eq_refl Hlen eq_refl)).
  reflexivity.
Defined.

Lemma WillingToIssueWildcard_accepted_iff_witness :
  loadedWith (E := env) examplePolicy loaded /\
  strings.Count "b.example.org" "*"%char = 0 /\
  ~ isDirectParent "b.example.org" "b.example.org".
Proof.
  split; [exact Example_loadedWith|]. split; [reflexivity|].
  apply (WillingToIssueWildcard_accepted_iff (E := env) examplePolicy loaded
           "b.example.org" Example_loadedWith eq_refl).
Defined.

Lemma WillingToIssueWildcard_accepted_base_witness :
  Value (dns "*.b.example.org") = "*." +:+ "b.example.org" /\
  WillingToIssueWildcard (E := env) loaded (dns "*.b.example.org") = None /\
  String.length "b.example.org" <= 228.
Proof.
  assert (WillingToIssueWildcard (E := env) loaded (dns "*.b.example.org")
          = None) as H by (vm_compute; reflexivity).
  split; [reflexivity|]. split; [exact H|].
  apply (WillingToIssueWildcard_accepted_base (E := env) loaded
           (dns "*.b.example.org") "b.example.org" eq_refl H).
Defined.

Lemma loadHostnamePolicy_order_irrelevant_witness :
  jsonUnmarshalBlacklist (External := env) policyDoc = inr examplePolicy /\
  jsonUnmarshalBlacklist (External := env)
    (list_byte_of_string
       "example.com,example.com;evil.example.org,evil.example.org")
  = inr {| Blacklist := ["example.com"; "example.com"];
           ExactBlacklist := ["evil.example.org"; "evil.example.org"] |} /\
  loadHostnamePolicy (E := env) (New allEnabled) policyDoc = (loaded, None) /\
  loadHostnamePolicy (E := env) (New allEnabled)
    (list_byte_of_string
       "example.com,example.com;evil.example.org,evil.example.org")
  = (loaded, None).
Proof.
  assert (jsonUnmarshalBlacklist (External := env)
            (list_byte_of_string
               "example.com,example.com;evil.example.org,evil.example.org")
          = inr {| Blacklist := ["example.com"; "example.com"];
                   ExactBlacklist := ["evil.example.org"; "evil.example.org"] |})
    as H2 by reflexivity.
  split; [exact Example_policyDoc|]. split; [exact H2|].
  split; [exact Example_loaded|].
  apply (loadHostnamePolicy_order_irrelevant (E := env) (New allEnabled)
           policyDoc _ examplePolicy _ loaded Example_policyDoc H2).
  - intros k. cbn. rewrite !elem_of_cons. tauto.
  - intros k. cbn. rewrite !elem_of_cons. tauto.
  - exact Example_loaded.
Defined.

Lemma ChallengesFor_nothing_enabled_witness :
  PermContract (E := env) /\
  exists pa' ent',
    ChallengesFor (E := env) (New None) (dns "foo.org") 1 false (0 : nat)
    = Some (pa', ent', {| resChallenges := []; resCombinations := [];
                          resErr := None |}).
Proof.
  split; [exact Example_PermContract|].
  apply (ChallengesFor_nothing_enabled (E := env) (New None) (dns "foo.org") 1
           false (0 : nat) Example_PermContract);
    reflexivity.
Defined.

Lemma Example_ChallengesFor :
  exists pa' ent' res,
    ChallengesFor (E := env) loaded (dns "foo.org") 1 false (0 : nat)
    = Some (pa', ent', res).
Proof.
  destruct (ChallengesFor_order (E := env) loaded (dns "foo.org") 1 false
              (0 : nat) Example_PermContract Example_ChallengeTypeContract)
    as (pa' & ent' & res & H & _).
  by exists pa', ent', res.
Qed.

Lemma ChallengesFor_types_witness :
  PermContract (E := env) /\ ChallengeTypeContract (E := env) /\
  strings.HasPrefix (Value (dns "foo.org")) "*." = false /\
  exists pa' ent' res,
    ChallengesFor (E := env) loaded (dns "foo.org") 1 false (0 : nat)
    = Some (pa', ent', res) /\
    NoDup (chType <$> resChallenges res).
Proof.
  split; [exact Example_PermContract|].
  split; [exact Example_ChallengeTypeContract|]. split; [reflexivity|].
  destruct Example_ChallengesFor as (pa' & ent' & res & H).
  exists pa', ent', res. split; [exact H|].
  apply (ChallengesFor_types (E := env) loaded (dns "foo.org") 1 false (0 : nat)
           pa' ent' res Example_PermContract Example_ChallengeTypeContract
           eq_refl H).
Defined.

Lemma validators_errors_classified_witness :
  blacklist loaded
  = Some (buildNameMap ["example.com"] ∅) /\
  WillingToIssue (E := env) loaded (dns "example.com") = Some errBlacklisted /\
  classified errBlacklisted.
Proof.
  assert (blacklist loaded
          = Some (buildNameMap ["example.com"] ∅)) as Hbl
    by (vm_compute; reflexivity).
  assert (WillingToIssue (E := env) loaded (dns "example.com")
          = Some errBlacklisted) as H by (vm_compute; reflexivity).
  split; [exact Hbl|]. split; [exact H|].
  apply (validators_errors_classified (E := env) loaded _ (dns "example.com")
           errBlacklisted Hbl (or_introl H)).
Defined.
